(** * Output.py: a shallow embedding of the product-page scraper

    The development follows the layout of [Output.py]:

    - [Py]      Python values, strings (sequences of code points), the string
                and list operations the script calls, exceptions as results;
    - [Utf8]    [bytes.decode('utf-8')] and [str.encode('utf-8')];
    - [Re]      the one regular expression of the script, [/dp/([A-Z0-9]+)];
    - [Bs4]     the part of a parsed document the script observes
                ([find], [.string], [.text]);
    - [Os]      the world the script runs in: files, console, network;
    - [Output]  the five functions of the script, in source order.

    Theorems come after all definitions. *)

From Stdlib Require Import ZArith List Bool Lia.
From Stdlib Require Import Strings.String Strings.Ascii Strings.Byte.
From Stdlib Require Import Numbers.DecimalString Numbers.DecimalNat.
From stdpp Require Import base option list gmap.

Local Open Scope Z_scope.

(* ===================================================================== *)
(** ** Python values and strings *)
(* ===================================================================== *)

Module Py.

(** A Python [str] is a sequence of Unicode code points; a [bytes] value is a
    sequence of bytes.  One code point may take several bytes in UTF-8 (the
    rupee sign is one character and three bytes), so the two are kept apart. *)
Abbreviation str := (list Z).
Abbreviation bytes := (list byte).

(** The values the script passes around. *)
Inductive value :=
| VNone
| VInt (n : Z)
| VStr (s : str)
| VBytes (b : bytes).

(** [isinstance(v, bytes)] *)
Definition isinstance_bytes (v : value) : bool :=
  match v with VBytes _ => true | _ => false end.

(** A string literal of the source, as code points (the literals of the
    script are ASCII, one character per byte). *)
Definition lit (s : string) : str :=
  map (fun a => Z.of_N (N_of_ascii a)) (list_ascii_of_string s).

(** A bytes literal of the source. *)
Definition blit (s : string) : bytes := list_byte_of_string s.

(** The exceptions that the modelled operations raise. *)
Inductive exn :=
| UnicodeDecodeError
| UnicodeEncodeError
| IndexError
| KeyError (key : str)
| AttributeError
| EOFError
| OSError (path : str)
| RequestException (cause : str).

(** A computation that returns or raises. *)
Inductive result (A : Type) :=
| Ok (a : A)
| Raise (e : exn).
Arguments Ok {A} a.
Arguments Raise {A} e.

#[export] Instance result_ret : MRet result := fun A a => Ok a.
#[export] Instance result_bind : MBind result := fun A B f m =>
  match m with Ok a => f a | Raise e => Raise e end.
#[export] Instance result_fmap : FMap result := fun A B f m =>
  match m with Ok a => Ok (f a) | Raise e => Raise e end.

(** [str.isspace] for one character (CPython's [_PyUnicode_IsWhitespace]). *)
Definition isspace (c : Z) : bool :=
  ((0x09 <=? c) && (c <=? 0x0D)) || ((0x1C <=? c) && (c <=? 0x20))
  || (c =? 0x85) || (c =? 0xA0) || (c =? 0x1680)
  || ((0x2000 <=? c) && (c <=? 0x200A))
  || (c =? 0x2028) || (c =? 0x2029) || (c =? 0x202F) || (c =? 0x205F)
  || (c =? 0x3000).

Fixpoint lstrip_by (drop_it : Z -> bool) (s : str) : str :=
  match s with
  | [] => []
  | c :: s' => if drop_it c then lstrip_by drop_it s' else s
  end.

Definition rstrip_by (drop_it : Z -> bool) (s : str) : str :=
  rev (lstrip_by drop_it (rev s)).

Definition strip_by (drop_it : Z -> bool) (s : str) : str :=
  rstrip_by drop_it (lstrip_by drop_it s).

(** [s.strip()] *)
Definition strip (s : str) : str := strip_by isspace s.

(** [s.strip(chars)] *)
Definition strip_chars (chars : str) (s : str) : str :=
  strip_by (fun c => existsb (Z.eqb c) chars) s.

(** [s.split(sep)] for a separator of one character: the segments between
    the occurrences of [sep]; never the empty list. *)
Fixpoint split (sep : Z) (s : str) : list str :=
  match s with
  | [] => [[]]
  | c :: s' =>
      if c =? sep then [] :: split sep s'
      else match split sep s' with
           | seg :: segs => (c :: seg) :: segs
           | [] => [[c]]
           end
  end.

(** [s.replace(old, new)] for [old] of one character. *)
Definition replace (old : Z) (new : str) (s : str) : str :=
  flat_map (fun c => if c =? old then new else [c]) s.

(** [l[i]]: negative indices count from the end, out of range raises. *)
Definition getitem {A} (l : list A) (i : Z) : result A :=
  let n := Z.of_nat (length l) in
  let j := if i <? 0 then n + i else i in
  if (j <? 0) || (n <=? j) then Raise IndexError
  else match l !! Z.to_nat j with
       | Some x => Ok x
       | None => Raise IndexError
       end.

(** [s[1:]] *)
Definition slice_from_1 (s : str) : str := skipn 1 s.

(** [s.lower()] as far as ASCII letters go.  The characters whose
    lower-case form has an ASCII letter are A-Z, the Kelvin sign U+212A
    (lowered to k) and U+0130 (lowered to i followed by U+0307).  The
    lower-case forms of all other characters hold no ASCII letter and are
    not modelled: these characters are left as they are. *)
Definition lower_char (c : Z) : str :=
  if (0x41 <=? c) && (c <=? 0x5A) then [c + 0x20]
  else if c =? 0x212A then [0x6B]
  else if c =? 0x0130 then [0x69; 0x0307]
  else [c].

Definition lower (s : str) : str := flat_map lower_char s.

(** [str(n)] for a natural number. *)
Definition str_of_nat (n : nat) : str :=
  lit (NilEmpty.string_of_uint (Nat.to_uint n)).

Definition colon : Z := 0x3A.
Definition comma : Z := 0x2C.
Definition slash : Z := 0x2F.
Definition hyphen : Z := 0x2D.
Definition dot : Z := 0x2E.

End Py.
Import Py.

(* ===================================================================== *)
(** ** UTF-8 *)
(* ===================================================================== *)

Module Utf8.

Definition byte_val (b : byte) : Z := Z.of_N (Byte.to_N b).

Definition byte_of (z : Z) : byte :=
  match Byte.of_N (Z.to_N z) with Some b => b | None => x00 end.

Definition between (lo hi : Z) (b : byte) : bool :=
  (lo <=? byte_val b) && (byte_val b <=? hi).

Definition cont (b : byte) : bool := between 0x80 0xBF b.

Definition low6 (b : byte) : Z := Z.land (byte_val b) 0x3F.

(** [b.decode('utf-8')], strict: overlong forms, surrogates, code points
    above U+10FFFF and truncated sequences raise [UnicodeDecodeError]. *)
Fixpoint decode (b : bytes) : result str :=
  match b with
  | [] => Ok []
  | b0 :: r0 =>
      let x := byte_val b0 in
      if x <=? 0x7F then cons x <$> decode r0
      else if between 0xC2 0xDF b0 then
        match r0 with
        | b1 :: r1 =>
            if cont b1
            then cons (Z.lor (Z.shiftl (Z.land x 0x1F) 6) (low6 b1)) <$> decode r1
            else Raise UnicodeDecodeError
        | _ => Raise UnicodeDecodeError
        end
      else if between 0xE0 0xEF b0 then
        match r0 with
        | b1 :: b2 :: r2 =>
            let lo := if x =? 0xE0 then 0xA0 else 0x80 in
            let hi := if x =? 0xED then 0x9F else 0xBF in
            if between lo hi b1 && cont b2
            then cons (Z.lor (Z.shiftl (Z.land x 0x0F) 12)
                         (Z.lor (Z.shiftl (low6 b1) 6) (low6 b2))) <$> decode r2
            else Raise UnicodeDecodeError
        | _ => Raise UnicodeDecodeError
        end
      else if between 0xF0 0xF4 b0 then
        match r0 with
        | b1 :: b2 :: b3 :: r3 =>
            let lo := if x =? 0xF0 then 0x90 else 0x80 in
            let hi := if x =? 0xF4 then 0x8F else 0xBF in
            if between lo hi b1 && cont b2 && cont b3
            then cons (Z.lor (Z.shiftl (Z.land x 0x07) 18)
                         (Z.lor (Z.shiftl (low6 b1) 12)
                            (Z.lor (Z.shiftl (low6 b2) 6) (low6 b3)))) <$> decode r3
            else Raise UnicodeDecodeError
        | _ => Raise UnicodeDecodeError
        end
      else Raise UnicodeDecodeError
  end.

(** The bytes of one code point; [None] for a surrogate or a value that is
    not a code point. *)
Definition encode_char (c : Z) : option bytes :=
  if (c <? 0) || (0x10FFFF <? c) || ((0xD800 <=? c) && (c <=? 0xDFFF)) then None
  else if c <=? 0x7F then Some [byte_of c]
  else if c <=? 0x7FF then
    Some [byte_of (Z.lor 0xC0 (Z.shiftr c 6));
          byte_of (Z.lor 0x80 (Z.land c 0x3F))]
  else if c <=? 0xFFFF then
    Some [byte_of (Z.lor 0xE0 (Z.shiftr c 12));
          byte_of (Z.lor 0x80 (Z.land (Z.shiftr c 6) 0x3F));
          byte_of (Z.lor 0x80 (Z.land c 0x3F))]
  else
    Some [byte_of (Z.lor 0xF0 (Z.shiftr c 18));
          byte_of (Z.lor 0x80 (Z.land (Z.shiftr c 12) 0x3F));
          byte_of (Z.lor 0x80 (Z.land (Z.shiftr c 6) 0x3F));
          byte_of (Z.lor 0x80 (Z.land c 0x3F))].

(** [s.encode('utf-8')] *)
Fixpoint encode (s : str) : result bytes :=
  match s with
  | [] => Ok []
  | c :: s' =>
      match encode_char c with
      | Some bs => app bs <$> encode s'
      | None => Raise UnicodeEncodeError
      end
  end.

End Utf8.


(* ===================================================================== *)
(** ** The regular expression of the script *)
(* ===================================================================== *)

Module Re.

(** The character class [[A-Z0-9]]. *)
Definition asin_char (c : Z) : bool :=
  ((0x41 <=? c) && (c <=? 0x5A)) || ((0x30 <=? c) && (c <=? 0x39)).

Fixpoint take_while (p : Z -> bool) (s : str) : str :=
  match s with
  | c :: s' => if p c then c :: take_while p s' else []
  | [] => []
  end.

Fixpoint starts_with (p s : str) : bool :=
  match p, s with
  | [], _ => true
  | a :: p', b :: s' => (a =? b) && starts_with p' s'
  | _ :: _, [] => false
  end.

(** A match of [/dp/([A-Z0-9]+)] that begins at the first character of [s]:
    group 1.  The group is greedy and nothing follows it in the pattern, so
    it is the longest run of class characters after [/dp/]. *)
Definition match_here (s : str) : option str :=
  if starts_with (lit "/dp/") s then
    match take_while asin_char (skipn 4 s) with
    | [] => None
    | g => Some g
    end
  else None.

(** [re.search(r'/dp/([A-Z0-9]+)', s)], then [.group(1)]: the leftmost
    match; [None] when the pattern occurs nowhere. *)
Fixpoint search (s : str) : option str :=
  match match_here s with
  | Some g => Some g
  | None => match s with
            | [] => None
            | _ :: s' => search s'
            end
  end.

End Re.

(* ===================================================================== *)
(** ** The parsed document *)
(* ===================================================================== *)

Module Bs4.

(** What [BeautifulSoup(response.content, 'html.parser')] builds, as far as
    the script looks at it: text nodes, and tags with a name, the values of
    their [class] attribute and their contents.  The parser itself (bytes to
    tree) is not modelled: the server of [Os.World] answers with a tree. *)
#[warnings="-register-all"]
Inductive node :=
| NavigableString (s : str)
| Tag (name : str) (classes : list str) (contents : list node).

Abbreviation soup := (list node).

Definition join_space (l : list str) : str :=
  match l with
  | [] => []
  | c :: cs => c ++ flat_map (fun x => 0x20 :: x) cs
  end.

(** The filter [{'class': value}]: some value of the attribute is [value],
    or the whole attribute, its values joined by one space, is [value]. *)
Definition class_matches (value : str) (classes : list str) : bool :=
  existsb (fun c => bool_decide (c = value)) classes
  || bool_decide (join_space classes = value).

(** The first tag, in document order, of the given name and class. *)
Fixpoint find_node (name value : str) (n : node) : option node :=
  match n with
  | NavigableString _ => None
  | Tag nm cls kids =>
      if bool_decide (nm = name) && class_matches value cls then Some n
      else (fix first_of (ks : list node) : option node :=
              match ks with
              | [] => None
              | k :: ks' =>
                  match find_node name value k with
                  | Some r => Some r
                  | None => first_of ks'
                  end
              end) kids
  end.

(** [soup.find(name, {'class': value})] *)
Fixpoint find (s : soup) (name value : str) : option node :=
  match s with
  | [] => None
  | k :: s' =>
      match find_node name value k with
      | Some r => Some r
      | None => find s' name value
      end
  end.

(** [element.string]: the text of the single text node below the element,
    [None] when an element on the way has no or several children. *)
Fixpoint string (n : node) : option str :=
  match n with
  | NavigableString s => Some s
  | Tag _ _ [k] => string k
  | Tag _ _ _ => None
  end.

(** [element.text]: all text below the element, concatenated. *)
Fixpoint text (n : node) : str :=
  match n with
  | NavigableString s => s
  | Tag _ _ kids => flat_map text kids
  end.

End Bs4.

(* ===================================================================== *)
(** ** The world of the script: files, console, network *)
(* ===================================================================== *)

Module Os.

(** A file is seen through the [csv] module, as the rows a [csv.reader]
    yields from it and a [csv.writer] puts into it (the dialect, quoting and
    line ends are the library's and are not modelled).  Paths are compared as
    they are written. *)
Inductive fsnode :=
| Dir
| File (rows : list (list str)).

(** What the script prints. *)
Inductive msg :=
| Prompt (text : str)
| ErrorFetching (url : option str) (e : exn)
| FileDoesNotExist (path : str)
| ScrapingCompleted (path : str)
| AnErrorOccurred (e : exn).

(** What becomes of one call of [requests.get]: it never returns (the call
    has no timeout), or it returns a response, here already parsed, or raises.
    What the library does in between is its own business and is not
    modelled: it sends no request at all for a string it cannot prepare
    (such a call returns with an exception), and several when it follows
    redirects. *)
Inductive answer :=
| Hangs
| Returns (r : result Bs4.soup).

Record World := mkWorld {
  files : gmap str fsnode;      (* the file system *)
  stdin : list str;             (* the lines the operator will type *)
  stdout : list msg;            (* what was printed, oldest first *)
  slept : nat;                  (* seconds spent in [time.sleep] *)
  calls : nat;                  (* calls of [requests.get] so far *)
  server : nat -> str -> answer;
                                (* what becomes of the n-th call, per URL *)
  encodable : Z -> bool         (* the characters the default encoding of
                                   text files, that of the output file, can
                                   hold *)
}.

(** A statement of the script: from a world to a returned value or a raised
    exception, and the world after; [None] when the statement never
    completes: a request that never returns, or a [while] loop still
    running after the fuel it was given. *)
Definition M (A : Type) : Type := World -> option (result A * World).

#[export] Instance M_ret : MRet M := fun A a w => Some (Ok a, w).
#[export] Instance M_bind : MBind M := fun A B f m w =>
  match m w with
  | Some (Ok a, w') => f a w'
  | Some (Raise e, w') => Some (Raise e, w')
  | None => None
  end.

#[export] Instance M_fmap : FMap M := fun A B f m w =>
  match m w with
  | Some (r, w') => Some (f <$> r, w')
  | None => None
  end.

Definition lift {A} (r : result A) : M A := fun w => Some (r, w).
Definition raise {A} (e : exn) : M A := lift (Raise e).

(** [try: body except Exception as e: handler(e)] *)
Definition try_except {A} (body : M A) (handler : exn -> M A) : M A := fun w =>
  match body w with
  | Some (Raise e, w') => handler e w'
  | r => r
  end.

(** [for x in l: body(x)] *)
Fixpoint for_each {A} (l : list A) (body : A -> M unit) : M unit :=
  match l with
  | [] => mret tt
  | x :: l' => body x ;; for_each l' body
  end.

Definition set_files (f : gmap str fsnode) (w : World) : World :=
  mkWorld f (stdin w) (stdout w) (slept w) (calls w) (server w) (encodable w).

(** [print(m)] *)
Definition print (m : msg) : M unit := fun w =>
  Some (Ok tt, mkWorld (files w) (stdin w) (stdout w ++ [m]) (slept w)
                 (calls w) (server w) (encodable w)).

(** [input(prompt)]: the prompt is printed, one line is read; at the end of
    the input [EOFError]. *)
Definition input (prompt : str) : M str := fun w =>
  let out := stdout w ++ [Prompt prompt] in
  match stdin w with
  | line :: rest =>
      Some (Ok line,
            mkWorld (files w) rest out (slept w) (calls w) (server w)
              (encodable w))
  | [] =>
      Some (Raise EOFError,
            mkWorld (files w) [] out (slept w) (calls w) (server w)
              (encodable w))
  end.

(** [time.sleep(n)] *)
Definition time_sleep (n : nat) : M unit := fun w =>
  Some (Ok tt, mkWorld (files w) (stdin w) (stdout w) (slept w + n)%nat
                 (calls w) (server w) (encodable w)).

(** What becomes of the [n]-th call of [requests.get], made for [url]: for
    a string the server says; [None] is no URL and the call raises. *)
Definition answer_to (srv : nat -> str -> answer) (n : nat)
    (url : option str) : answer :=
  match url with
  | Some u => srv n u
  | None => Returns (Raise (RequestException (lit "MissingSchema")))
  end.

(** [requests.get(url, headers=...)] followed by the parse of the response:
    one call, which returns, raises, or never completes. *)
Definition requests_get (url : option str) : M Bs4.soup := fun w =>
  match answer_to (server w) (calls w) url with
  | Hangs => None
  | Returns r =>
      Some (r, mkWorld (files w) (stdin w) (stdout w) (slept w)
                 (S (calls w)) (server w) (encodable w))
  end.

(** [os.path.exists(path)], as a test and as a statement. *)
Definition exists_b (w : World) (path : str) : bool :=
  bool_decide (is_Some (files w !! path)).
Definition os_path_exists (path : str) : M bool := fun w =>
  Some (Ok (exists_b w path), w).

(** [os.path.isfile(path)] *)
Definition os_path_isfile (path : str) : M bool := fun w =>
  Some (Ok (match files w !! path with Some (File _) => true | _ => false end), w).

(** [s.rfind(c)] for one character: the last index of [c], or -1. *)
Fixpoint rfind_from (c : Z) (s : str) (i : Z) (found : Z) : Z :=
  match s with
  | [] => found
  | x :: s' => rfind_from c s' (i + 1) (if x =? c then i else found)
  end.
Definition rfind (c : Z) (s : str) : Z := rfind_from c s 0 (-1).

(** [os.path.splitext(p)] (posixpath): the extension starts at the last dot
    of the last path component, unless only dots precede it there. *)
Definition splitext (p : str) : str * str :=
  let sepIndex := rfind slash p in
  let dotIndex := rfind dot p in
  let filename := skipn (Z.to_nat (sepIndex + 1)) p in
  let before_dot := firstn (Z.to_nat (dotIndex - (sepIndex + 1))) filename in
  if (sepIndex <? dotIndex) && existsb (fun x => negb (x =? dot)) before_dot
  then (firstn (Z.to_nat dotIndex) p, skipn (Z.to_nat dotIndex) p)
  else (p, []).

(** [open(path, 'r')] and [csv.reader]: all the rows of the file. *)
Definition open_read (path : str) : M (list (list str)) := fun w =>
  match files w !! path with
  | Some (File rows) => Some (Ok rows, w)
  | _ => Some (Raise (OSError path), w)
  end.

(** [open(path, 'w', newline='')]: the file is created, or emptied. *)
Definition open_write (path : str) : M unit := fun w =>
  match files w !! path with
  | Some Dir => Some (Raise (OSError path), w)
  | _ => Some (Ok tt, set_files (<[path := File []]> (files w)) w)
  end.

(** How [csv.writer] writes a cell that is a string or [None]: [None] as
    the empty string. *)
Definition csv_cell (v : option str) : str :=
  match v with
  | Some s => s
  | None => []
  end.

(** The encoding of the file can hold every character of the cells. *)
Definition writable (w : World) (cells : list str) : bool :=
  forallb (forallb (encodable w)) cells.

(** [writer.writerow(row)] on the writer of the file opened at [path].  The
    file was opened in text mode with the default encoding and strict error
    handling: a row with a character the encoding cannot hold raises
    [UnicodeEncodeError] and nothing of the row is written. *)
Definition writerow (path : str) (row : list (option str)) : M unit := fun w =>
  match files w !! path with
  | Some (File rows) =>
      let cells := csv_cell <$> row in
      if writable w cells
      then Some (Ok tt, set_files (<[path := File (rows ++ [cells])]> (files w)) w)
      else Some (Raise UnicodeEncodeError, w)
  | _ => Some (Raise (OSError path), w)
  end.

(** One row of a [csv.DictReader] as a dictionary: the cells under their
    field names (a later duplicate name wins), [None] under the names the
    row is too short for.  The entry under the key [None] that holds the
    cells of a row that is too long is left out: no string key reads it. *)
Definition dict_row (fieldnames row : list str) : gmap str (option str) :=
  let d := foldl (fun d kv => <[kv.1 := Some kv.2]> d) ∅ (zip fieldnames row) in
  foldl (fun d k => <[k := None]> d) d (skipn (length row) fieldnames).

(** The dictionaries a [csv.DictReader] yields: the first row gives the field
    names, empty rows after it are skipped. *)
Definition dict_reader (rows : list (list str)) : list (gmap str (option str)) :=
  match rows with
  | [] => []
  | fieldnames :: data =>
      dict_row fieldnames <$> filter (fun r => r <> []) data
  end.

(** [d[key]] *)
Definition dict_get (d : gmap str (option str)) (key : str) : result (option str) :=
  match d !! key with
  | Some v => Ok v
  | None => Raise (KeyError key)
  end.

End Os.

(* ===================================================================== *)
(** ** Output.py *)
(* ===================================================================== *)

Module Output.
Import Os.

Definition not_available : str := lit "Not Available".

(** [convert_to_price(byte_data)] (lines 9-30).  The [try] catches
    [UnicodeDecodeError] and [IndexError] only; any other exception would
    leave the function. *)
Definition convert_to_price (byte_data : value) : result str :=
  match byte_data with
  | VBytes b =>
      let body :=
        text_data ← Utf8.decode b;
        price_part ← strip <$> getitem (split colon text_data) (-1);
        let price_without_currency :=
          replace comma [] (slice_from_1 price_part) in
        Ok price_without_currency in
      match body with
      | Raise UnicodeDecodeError | Raise IndexError => Ok not_available
      | r => r
      end
  | _ => Ok not_available
  end.

(** The tuple [extract_product_details_and_info] returns:
    (product_name, asin, original_price, discounted_price, product_rating),
    each a string or [None]. *)
Definition details : Type :=
  option str * option str * option str * option str * option str.

Definition no_details : details := (None, None, None, None, None).

(** Lines 48-66: the fields, from the parsed page and the URL.  [url.split]
    with an index out of range raises [IndexError]; [.string] is [None] for an
    element with several children, and [None.strip()] raises
    [AttributeError]; [encode] raises for a lone surrogate. *)
Definition page_fields (soup : Bs4.soup) (url : str) : result details :=
  let asin_match := Re.search url in
  let asin := match asin_match with
              | Some group1 => Some group1
              | None => None
              end in
  product_name ← replace hyphen (lit " ") <$> getitem (split slash url) 3;
  let original_price_element :=
    Bs4.find soup (lit "span") (lit "a-size-small aok-offscreen") in
  original_price ←
    match original_price_element with
    | Some el =>
        match Bs4.string el with
        | Some s => VBytes <$> Utf8.encode (strip s)
        | None => Raise AttributeError
        end
    | None => Ok (VStr (lit "Not Available"))
    end;
  original_price ← convert_to_price original_price;
  let discounted_price_element :=
    Bs4.find soup (lit "span") (lit "a-price-whole") in
  let discounted_price :=
    match discounted_price_element with
    | Some el => strip (Bs4.text el)
    | None => lit "Not Available"
    end in
  let product_rating_element :=
    Bs4.find soup (lit "span") (lit "a-icon-alt") in
  let product_rating :=
    match product_rating_element with
    | Some el => strip (Bs4.text el)
    | None => lit "Not Available"
    end in
  Ok (Some product_name, asin, Some original_price, Some discounted_price,
      Some product_rating).

(** [extract_product_details_and_info(url)] (lines 32-69).  The URL is a
    string or, from a short row of the input file, [None]; for [None] the
    request raises, and lines 48-66 are not reached. *)
Definition extract_product_details_and_info (url : option str) : M details :=
  try_except
    (time_sleep 2;;
     soup ← requests_get url;
     match url with
     | Some u => lift (page_fields soup u)
     | None => raise (RequestException (lit "MissingSchema"))
     end)
    (fun e => print (ErrorFetching url e);; mret no_details).

(** [read_urls_from_csv(csv_file)] (lines 71-86). *)
Definition read_urls_from_csv (csv_file : str) : M (list (option str)) :=
  rows ← open_read csv_file;
  lift (mapM (fun row => dict_get row (lit "URL")) (dict_reader rows)).

(** The [while] loop of [get_unique_output_file] (lines 100-102). *)
Fixpoint unique_loop (fuel : nat) (w : World) (base_name ext : str)
    (output_csv_file : str) (count : nat) : option str :=
  match fuel with
  | O => None
  | S fuel' =>
      if exists_b w output_csv_file
      then unique_loop fuel' w base_name ext
             (base_name ++ lit "_" ++ str_of_nat count ++ ext) (S count)
      else Some output_csv_file
  end.

(** [get_unique_output_file(output_csv_file)] (lines 88-103); [fuel] bounds
    the turns of its loop. *)
Definition get_unique_output_file (fuel : nat) (output_csv_file : str) : M str :=
  fun w =>
    let '(base_name, ext) := splitext output_csv_file in
    match unique_loop fuel w base_name ext output_csv_file 1 with
    | Some r => Some (Ok r, w)
    | None => None
    end.

Definition header : list (option str) :=
  Some <$> [lit "URL"; lit "Product Name"; lit "ASIN"; lit "Original Price";
            lit "Discounted Price"; lit "Product Rating"].

(** The loop of [main] (lines 130-132). *)
Definition main_loop (output_csv_file : str) (urls : list (option str)) : M unit :=
  for_each urls (fun url =>
    '(product_name, asin, original_price, discounted_price, product_rating) ←
      extract_product_details_and_info url;
    writerow output_csv_file
      [url; product_name; asin; original_price; discounted_price;
       product_rating]).

Definition prompt_path : str :=
  lit "Enter the path to the CSV file containing Amazon product URLs: ".
Definition prompt_overwrite (output_csv_file : str) : str :=
  lit "'" ++ output_csv_file ++
  lit "' already exists. Do you want to overwrite it? (y/n): ".

(** [main()] (lines 105-136); [fuel] is for the loop of
    [get_unique_output_file]. *)
Definition main (fuel : nat) : M unit :=
  try_except
    (input_csv_path ← input prompt_path;
     let input_csv_path := strip_chars [0x22] input_csv_path in
     isfile ← os_path_isfile input_csv_path;
     if negb (isfile : bool) then print (FileDoesNotExist input_csv_path)
     else
       let output_csv_file := lit "output_details.csv" in
       output_exists ← os_path_exists output_csv_file;
       output_csv_file ←
         (if (output_exists : bool) then
            choice ← lower <$> input (prompt_overwrite output_csv_file);
            if bool_decide (choice <> lit "y")
            then get_unique_output_file fuel output_csv_file
            else mret output_csv_file
          else mret output_csv_file);
       urls ← read_urls_from_csv input_csv_path;
       open_write output_csv_file;;
       writerow output_csv_file header;;
       main_loop output_csv_file urls;;
       print (ScrapingCompleted output_csv_file))
    (fun e => print (AnErrorOccurred e)).

End Output.

(* ===================================================================== *)
(** ** The properties the specification names *)
(* ===================================================================== *)

Module Spec.
Import Os Output.

(** The character class [[0-9]]. *)
Definition digit (c : Z) : bool := (0x30 <=? c) && (c <=? 0x39).

Definition nonempty (s : str) : bool :=
  match s with [] => false | _ :: _ => true end.

(** The whole string matches [[0-9]+(\.[0-9]+)?]: a non-empty run of digits,
    then nothing, or a dot and a second non-empty run of digits. *)
Definition price_format (s : str) : bool :=
  let whole := Re.take_while digit s in
  let rest := skipn (length whole) s in
  nonempty whole &&
  match rest with
  | [] => true
  | c :: frac => (c =? dot) && nonempty frac && forallb digit frac
  end.

(** The output the specification promises of the price normalizer. *)
Definition canonical_price (out : str) : Prop :=
  out = not_available \/ (price_format out = true /\ comma ∉ out).

(** Digits in groups: digits and thousands separators, one digit at least. *)
Definition grouped_digits (s : str) : bool :=
  forallb (fun c => digit c || (c =? comma)) s && existsb digit s.

(** The characters of an amount: digits, separators and the dot. *)
Definition amount_char (c : Z) : bool :=
  digit c || (c =? comma) || (c =? dot).

(** An amount as the page renders it: grouped digits, and possibly a dot
    and further digits. *)
Definition amount_text (s : str) : Prop :=
  grouped_digits s = true \/
  exists whole frac,
    s = whole ++ dot :: frac /\
    grouped_digits whole = true /\ grouped_digits frac = true.

(** A text of the shape [<label>: <currencySymbol><amount>]: a label, a
    colon, the currency symbol (one character that is neither a blank nor a
    colon) and the amount, with blanks allowed around symbol and amount. *)
Definition labelled_price (text : str) : Prop :=
  exists label pad1 sym amount pad2,
    text = label ++ colon :: pad1 ++ sym :: amount ++ pad2 /\
    forallb isspace pad1 = true /\ forallb isspace pad2 = true /\
    isspace sym = false /\ sym <> colon /\ amount_text amount.

(** The character class of an alphanumeric run, [[A-Za-z0-9]]. *)
Definition alnum (c : Z) : bool :=
  digit c || ((0x41 <=? c) && (c <=? 0x5A)) || ((0x61 <=? c) && (c <=? 0x7A)).

(** [s] does not begin with a character of the class [p]. *)
Definition stops (p : Z -> bool) (s : str) : Prop :=
  match s with
  | [] => True
  | c :: _ => p c = false
  end.


(** The name tried at step [i] by [get_unique_output_file]: the requested
    name, then the name with the suffix [_i] before its extension. *)
Definition candidate (name : str) (i : nat) : str :=
  match i with
  | O => name
  | S _ => (splitext name).1 ++ lit "_" ++ str_of_nat i ++ (splitext name).2
  end.

(** The fields of a record, by name. *)
Definition product_name (d : details) : option str := d.1.1.1.1.
Definition asin (d : details) : option str := d.1.1.1.2.
Definition original_price (d : details) : option str := d.1.1.2.
Definition discounted_price (d : details) : option str := d.1.2.
Definition product_rating (d : details) : option str := d.2.

(** What becomes of the next call of [requests.get] in the world [w]. *)
Definition response (w : World) (url : option str) : answer :=
  answer_to (server w) (calls w) url.

(** The record for what a call returned and a URL: the fields of the page,
    and the record of [None]s when the request or the extraction raised. *)
Definition record_of (r : result Bs4.soup) (url : option str) : details :=
  match r, url with
  | Ok soup, Some u =>
      match page_fields soup u with
      | Ok d => d
      | Raise _ => no_details
      end
  | _, _ => no_details
  end.

(** The row the loop of [main] writes for a URL and its record. *)
Definition row_of (url : option str) (d : details) : list str :=
  csv_cell <$> [url; product_name d; asin d; original_price d;
                discounted_price d; product_rating d].

(** Every call of [requests.get] returns, with a response or an exception. *)
Definition never_hangs (w : World) : Prop :=
  forall n u, server w n u <> Hangs.

(** The rows the loop of [main] hands to the writer for a list of URLs when
    the first call is the [n]-th, one row per URL in the order of the list;
    [None] when one of the calls never returns. *)
Fixpoint loop_rows (srv : nat -> str -> answer) (n : nat)
    (urls : list (option str)) : option (list (list str)) :=
  match urls with
  | [] => Some []
  | url :: rest =>
      match answer_to srv n url with
      | Hangs => None
      | Returns r =>
          cons (row_of url (record_of r url)) <$> loop_rows srv (S n) rest
      end
  end.

(** The rows that reach the output file: those before the first one the
    writer refuses. *)
Fixpoint written_rows (ok : list str -> bool) (planned : list (list str))
    : list (list str) :=
  match planned with
  | [] => []
  | row :: rest => if ok row then row :: written_rows ok rest else []
  end.

(** The calls of [requests.get] the loop makes: one per row handed to the
    writer, the refused one included. *)
Definition turns (ok : list str -> bool) (planned : list (list str)) : nat :=
  Nat.min (length planned) (S (length (written_rows ok planned))).

(** The input file cannot be used: the path is not that of a file, or the
    file has rows of data and no column [URL] in its header. *)
Definition input_file_unusable (w : World) (path : str) : Prop :=
  (forall rows, files w !! path <> Some (File rows)) \/
  (exists fieldnames data row,
     files w !! path = Some (File (fieldnames :: data)) /\
     (lit "URL" ∉ fieldnames) /\ (row ∈ data) /\ row <> []).

(** The last message printed reports an error to the operator. *)
Definition error_reported (w : World) : Prop :=
  match last (stdout w) with
  | Some (FileDoesNotExist _) | Some (AnErrorOccurred _) => True
  | _ => False
  end.

End Spec.

(* ===================================================================== *)
(** ** Worlds and pages for the examples *)
(* ===================================================================== *)

Module Examples.
Import Os Output.

Definition mouse_url : str :=
  lit "https://site.example/wireless-mouse/dp/B0ABCXYZ12".

Definition lowercase_url : str :=
  lit "https://site.example/item/dp/b0abcxyz12".

(** A page with none of the three elements. *)
Definition bare_page : Bs4.soup :=
  [Bs4.Tag (lit "html") []
     [Bs4.Tag (lit "span") [lit "a-size-base"]
        [Bs4.NavigableString (lit "no price here")]]].

(** A page with the three elements; the price label has the rupee sign,
    one character and three bytes. *)
Definition priced_page : Bs4.soup :=
  [Bs4.Tag (lit "html") []
     [Bs4.Tag (lit "span") [lit "a-size-small"; lit "aok-offscreen"]
        [Bs4.NavigableString (lit " M.R.P.: " ++ [0x20B9] ++ lit "1,299.00 ")];
      Bs4.Tag (lit "span") [lit "a-price-whole"]
        [Bs4.NavigableString (lit "999");
         Bs4.Tag (lit "span") [lit "a-price-decimal"]
           [Bs4.NavigableString (lit ".")]];
      Bs4.Tag (lit "span") [lit "a-icon-alt"]
        [Bs4.NavigableString (lit "4.3 out of 5 stars")]]].

(** Two encodings of text files: UTF-8, which holds every code point but
    the surrogates, and Latin-1, which holds the first 256. *)
Definition utf8 : Z -> bool :=
  fun c => match Utf8.encode_char c with Some _ => true | None => false end.

(** A server that is unreachable, and one that answers every request with
    the bare page. *)
Definition unreachable : nat -> str -> answer :=
  fun _ _ => Returns (Raise (RequestException (lit "ConnectionError"))).
Definition bare_server : nat -> str -> answer :=
  fun _ _ => Returns (Ok bare_page).

Definition out_csv : str := lit "output_details.csv".

Definition online_world : World :=
  mkWorld {[ out_csv := File [] ]} [] [] 0 0 bare_server utf8.


(** Two output files are there already. *)
Definition two_outputs_world : World :=
  mkWorld {[ lit "output.csv" := File []; lit "output_1.csv" := File [] ]}
    [] [] 0 0 unreachable utf8.

(** The operator names [urls.csv]: a file whose only row is the header
    [Link]; the same file with one row of data; and no file at all. *)
Definition header_only_world : World :=
  mkWorld {[ lit "urls.csv" := File [[lit "Link"]] ]}
    [lit "urls.csv"] [] 0 0 unreachable utf8.
Definition wrong_column_world : World :=
  mkWorld {[ lit "urls.csv" := File [[lit "Link"]; [mouse_url]] ]}
    [lit "urls.csv"] [] 0 0 unreachable utf8.
Definition missing_file_world : World :=
  mkWorld ∅ [lit "urls.csv"] [] 0 0 unreachable utf8.

(** Three URLs in the input file; the second request fails. *)
Definition second_fails : nat -> str -> answer :=
  fun n _ =>
    if Nat.eqb n 1
    then Returns (Raise (RequestException (lit "ConnectionError")))
    else Returns (Ok priced_page).
Definition three_urls_world : World :=
  mkWorld
    {[ lit "urls.csv" :=
         File [[lit "URL"]; [mouse_url]; [lowercase_url]; [mouse_url]] ]}
    [lit "urls.csv"] [] 0 0 second_fails utf8.

End Examples.

(* ===================================================================== *)
(** ** Further notions for the behaviour of the script *)
(* ===================================================================== *)

Module Behaviour.
Import Os Output Spec.


(** No blank at either end. *)
Definition trimmed (s : str) : Prop :=
  stops isspace s /\ stops isspace (rev s).

(** The rows of data a [csv.DictReader] looks at: the non-empty ones. *)
Definition data_rows (data : list (list str)) : list (list str) :=
  filter (fun r => r <> []) data.

(** The index of the last field name equal to [key]. *)
Fixpoint last_index (key : str) (fieldnames : list str) : option nat :=
  match fieldnames with
  | [] => None
  | k :: rest =>
      match last_index key rest with
      | Some i => Some (S i)
      | None => if bool_decide (k = key) then Some 0%nat else None
      end
  end.

(** The last statements of [main] (lines 124-134), once the names of the
    input and the output file are known. *)
Definition finish (input_csv_path output_csv_file : str) : M unit :=
  urls ← read_urls_from_csv input_csv_path;
  open_write output_csv_file;;
  writerow output_csv_file header;;
  main_loop output_csv_file urls;;
  print (ScrapingCompleted output_csv_file).

(** The last message printed closes a run: an error, or the success. *)
Definition run_closed (w : World) : Prop :=
  match last (stdout w) with
  | Some (FileDoesNotExist _) | Some (AnErrorOccurred _)
  | Some (ScrapingCompleted _) => True
  | _ => False
  end.

(** The operator agreed to overwrite: [y] in either case. *)
Definition agreed (answer : str) : Prop :=
  answer = lit "y" \/ answer = lit "Y".

End Behaviour.

Module Cases.
Import Os Output Examples.

(** A URL with two slashes only. *)
Definition short_url : str := lit "https://site.example".

Definition priced_server : nat -> str -> answer :=
  fun _ _ => Returns (Ok priced_page).

Definition priced_world : World :=
  mkWorld {[ out_csv := File [] ]} [] [] 0 0 priced_server utf8.

(** A file with two columns named [URL], an empty row and short rows. *)
Definition ragged_world : World :=
  mkWorld
    {[ lit "urls.csv" :=
         File [[lit "Name"; lit "URL"; lit "URL"];
               [lit "a"; mouse_url; short_url];
               [];
               [lit "b"];
               [lit "c"; lowercase_url]] ]}
    [lit "urls.csv"] [] 0 0 priced_server utf8.

(** The output file of an earlier run is there; the operator declines, or
    agrees, to overwrite it. *)
Definition old_rows : list (list str) := [[lit "URL"]; [lit "old"]].
Definition declining_world : World :=
  mkWorld
    {[ lit "urls.csv" := File [[lit "URL"]; [mouse_url]];
       out_csv := File old_rows ]}
    [lit "urls.csv"; lit "n"] [] 0 0 priced_server utf8.



End Cases.

Import Os Output Spec Examples.

(* ===================================================================== *)
(** ** Facts about the string operations *)
(* ===================================================================== *)

Section StringFacts.

Lemma fmap_Ok {A B} (f : A -> B) (m : result A) (y : B) :
  f <$> m = Ok y -> exists x, m = Ok x /\ y = f x.
Proof. destruct m as [x|e]; cbn; intros H; inversion H; eauto. Qed.

Lemma fmap_Raise {A B} (f : A -> B) (m : result A) (e : exn) :
  f <$> m = Raise e -> m = Raise e.
Proof. destruct m as [x|e']; cbn; intros H; inversion H; reflexivity. Qed.

Lemma split_cons (sep : Z) (s : str) :
  exists seg segs, split sep s = seg :: segs.
Proof.
  induction s as [|c s IH]; cbn.
  - eauto.
  - destruct (c =? sep); [eauto|].
    destruct IH as (seg & segs & ->). eauto.
Qed.

Lemma getitem_last {A} (l : list A) (x : A) :
  last l = Some x -> getitem l (-1) = Ok x.
Proof.
  intros Hlast. unfold getitem.
  assert (Hlen : (0 < length l)%nat).
  { destruct l; [discriminate | cbn; lia]. }
  replace (-1 <? 0) with true by reflexivity.
  destruct (_ || _) eqn:Hrange.
  - apply orb_true_iff in Hrange as [H|H]; [apply Z.ltb_lt in H | apply Z.leb_le in H]; lia.
  - replace (Z.to_nat (Z.of_nat (length l) + -1)) with (pred (length l)) by lia.
    rewrite <- last_lookup, Hlast. reflexivity.
Qed.

Lemma split_app_sep (sep : Z) (a r : str) :
  exists seg segs, split sep (a ++ sep :: r) = (seg :: segs) ++ split sep r.
Proof.
  induction a as [|c a IH]; cbn.
  - rewrite Z.eqb_refl. exists [], []. reflexivity.
  - destruct IH as (seg & segs & ->). destruct (c =? sep).
    + exists [], (seg :: segs). reflexivity.
    + exists (c :: seg), segs. reflexivity.
Qed.

Lemma split_no_sep (sep : Z) (s : str) :
  sep ∉ s -> split sep s = [s].
Proof.
  induction s as [|c s IH]; cbn; intros Hnot; [reflexivity|].
  destruct (Z.eqb_spec c sep) as [->|Hne].
  - exfalso. apply Hnot. left.
  - rewrite IH; [reflexivity|]. intros Hin. apply Hnot. now right.
Qed.

(** The last segment of a text with a colon is what follows the last colon. *)
Lemma last_segment (sep : Z) (a r : str) :
  sep ∉ r -> getitem (split sep (a ++ sep :: r)) (-1) = Ok r.
Proof.
  intros Hnot. apply getitem_last.
  destruct (split_app_sep sep a r) as (seg & segs & ->).
  rewrite last_app, (split_no_sep sep r Hnot). reflexivity.
Qed.

Lemma getitem_split_neg1 (sep : Z) (s : str) :
  exists seg, getitem (split sep s) (-1) = Ok seg.
Proof.
  destruct (split_cons sep s) as (seg & segs & Hs).
  destruct (last (split sep s)) as [x|] eqn:Hlast.
  - exists x. now apply getitem_last.
  - apply last_None in Hlast. congruence.
Qed.

Lemma lstrip_by_skip (p : Z -> bool) (pad s : str) :
  forallb p pad = true -> lstrip_by p (pad ++ s) = lstrip_by p s.
Proof.
  induction pad as [|c pad IH]; cbn; [reflexivity|].
  intros H. apply andb_true_iff in H as [-> H]. auto.
Qed.

Lemma lstrip_by_keep (p : Z -> bool) (s : str) :
  forallb (fun c => negb (p c)) s = true -> lstrip_by p s = s.
Proof.
  destruct s as [|c s]; cbn; [reflexivity|].
  intros H. apply andb_true_iff in H as [H _].
  apply negb_true_iff in H. now rewrite H.
Qed.

Lemma forallb_rev {A} (p : A -> bool) (l : list A) :
  forallb p (rev l) = forallb p l.
Proof.
  induction l as [|x l IH]; cbn; [reflexivity|].
  rewrite forallb_app, IH. cbn. rewrite andb_true_r. apply andb_comm.
Qed.

(** Stripping removes the padding around a text without blanks. *)
Lemma strip_by_padded (p : Z -> bool) (pad1 s pad2 : str) :
  forallb p pad1 = true -> forallb p pad2 = true ->
  forallb (fun c => negb (p c)) s = true ->
  strip_by p (pad1 ++ s ++ pad2) = s.
Proof.
  intros H1 H2 Hs. unfold strip_by, rstrip_by.
  rewrite (lstrip_by_skip p pad1 _ H1).
  destruct s as [|c s].
  - cbn. rewrite <- (app_nil_r pad2) at 1.
    rewrite (lstrip_by_skip p pad2 [] H2). reflexivity.
  - assert (Hc : p c = false).
    { cbn in Hs. apply andb_true_iff in Hs as [Hc _].
      now apply negb_true_iff in Hc. }
    cbn [app lstrip_by]. rewrite Hc.
    change (c :: s ++ pad2) with ((c :: s) ++ pad2).
    rewrite rev_app_distr, lstrip_by_skip by now rewrite forallb_rev.
    rewrite lstrip_by_keep by now rewrite forallb_rev.
    apply rev_involutive.
Qed.

Lemma replace_remove_app (old : Z) (a b : str) :
  replace old [] (a ++ b) = replace old [] a ++ replace old [] b.
Proof. unfold replace. apply flat_map_app. Qed.

Lemma replace_remove_not_in (old : Z) (s : str) :
  old ∉ replace old [] s.
Proof.
  induction s as [|c s IH]; cbn.
  - apply not_elem_of_nil.
  - destruct (Z.eqb_spec c old) as [->|Hne]; cbn; [exact IH|].
    intros Hin. apply elem_of_cons in Hin as [Heq|Hin]; [congruence | now apply IH].
Qed.

Lemma decode_raises (b : bytes) (e : exn) :
  Utf8.decode b = Raise e -> e = UnicodeDecodeError.
Proof.
  remember (length b) as n eqn:Hn. revert b Hn e.
  induction n as [n IH] using lt_wf_ind. intros b Hn e.
  assert (Hrec : forall r, (length r < n)%nat ->
            forall (f : str -> str), f <$> Utf8.decode r = Raise e ->
            e = UnicodeDecodeError).
  { intros r Hr f Hf. apply fmap_Raise in Hf. eapply IH; eauto. }
  destruct b as [|b0 r0]; [discriminate|]. cbn [Utf8.decode]. subst n.
  cbn [length] in Hrec.
  repeat match goal with
  | |- Raise _ = Raise _ -> _ => intros [= <-]; reflexivity
  | |- _ <$> Utf8.decode ?r = Raise _ -> _ =>
      apply Hrec; cbn [length]; lia
  | |- context [if ?c then _ else _] => destruct c
  | |- context [match ?l with [] => _ | _ :: _ => _ end] => destruct l
  end.
Qed.

End StringFacts.

(* ===================================================================== *)
(** ** The price normalizer *)
(* ===================================================================== *)

Section PriceNormalizer.

Lemma digit_range (c : Z) : digit c = true <-> 0x30 <= c <= 0x39.
Proof. unfold digit. rewrite andb_true_iff, !Z.leb_le. reflexivity. Qed.

Lemma isspace_false_above (c : Z) : 0x21 <= c <= 0x7F -> isspace c = false.
Proof.
  intros Hc. unfold isspace.
  repeat match goal with
  | |- _ || _ = false => apply orb_false_intro
  | |- (_ =? _) = false => apply Z.eqb_neq; lia
  | |- (?a <=? c) && (c <=? ?b) = false =>
      apply andb_false_iff;
      first [ left; apply Z.leb_gt; lia | right; apply Z.leb_gt; lia ]
  end.
Qed.

Lemma amount_char_plain (c : Z) :
  amount_char c = true -> isspace c = false /\ c <> colon.
Proof.
  unfold amount_char, comma, dot, colon. rewrite !orb_true_iff, digit_range, !Z.eqb_eq.
  intros H. split; [apply isspace_false_above|]; lia.
Qed.

Lemma grouped_amount_chars (s : str) :
  grouped_digits s = true -> forallb amount_char s = true.
Proof.
  unfold grouped_digits. rewrite andb_true_iff. intros [H _].
  rewrite forallb_forall in H |- *. intros c Hc. unfold amount_char.
  now rewrite (H c Hc).
Qed.

Lemma amount_text_chars (s : str) :
  amount_text s -> forallb amount_char s = true.
Proof.
  intros [H|(whole & frac & -> & Hw & Hf)].
  - now apply grouped_amount_chars.
  - rewrite forallb_app. cbn [forallb].
    rewrite (grouped_amount_chars _ Hw), (grouped_amount_chars _ Hf).
    reflexivity.
Qed.

Lemma replace_grouped (s : str) :
  grouped_digits s = true ->
  forallb digit (replace comma [] s) = true /\ replace comma [] s <> [].
Proof.
  unfold grouped_digits. rewrite andb_true_iff. intros [Hall Hex]. split.
  - clear Hex. induction s as [|c s IH]; [reflexivity|].
    cbn in Hall. apply andb_true_iff in Hall as [Hc Hall].
    rewrite orb_true_iff, Z.eqb_eq in Hc.
    cbn [replace flat_map]. fold (replace comma [] s).
    destruct (Z.eqb_spec c comma) as [->|Hne]; cbn [app]; [now apply IH|].
    destruct Hc as [Hc|Hc]; [|congruence].
    cbn [forallb]. rewrite Hc. now apply IH.
  - induction s as [|c s IH]; [discriminate|].
    cbn in Hall, Hex. apply andb_true_iff in Hall as [Hc Hall].
    cbn [replace flat_map]. fold (replace comma [] s).
    destruct (Z.eqb_spec c comma) as [->|Hne]; cbn [app]; [|discriminate].
    replace (digit comma) with false in Hex by reflexivity. now apply IH.
Qed.

Lemma take_while_app (p : Z -> bool) (s rest : str) :
  forallb p s = true ->
  Re.take_while p (s ++ rest) = s ++ Re.take_while p rest.
Proof.
  induction s as [|c s IH]; cbn; [reflexivity|].
  intros H. apply andb_true_iff in H as [-> H]. now rewrite IH.
Qed.

Lemma price_format_whole (ds : str) :
  forallb digit ds = true -> ds <> [] -> price_format ds = true.
Proof.
  intros Hd Hne.
  pose proof (take_while_app digit ds [] Hd) as Htw.
  cbn [Re.take_while] in Htw. rewrite !app_nil_r in Htw.
  unfold price_format. cbv zeta. rewrite Htw, skipn_all. now destruct ds.
Qed.

Lemma price_format_fraction (ds fs : str) :
  forallb digit ds = true -> ds <> [] ->
  forallb digit fs = true -> fs <> [] ->
  price_format (ds ++ dot :: fs) = true.
Proof.
  intros Hd Hne Hf Hfne. unfold price_format. cbv zeta.
  rewrite take_while_app by assumption. cbn [Re.take_while].
  replace (digit dot) with false by reflexivity.
  rewrite app_nil_r, skipn_app, skipn_all, Nat.sub_diag. cbn [app skipn].
  rewrite Z.eqb_refl, Hf. destruct ds; [congruence|]. now destruct fs.
Qed.

Lemma replace_amount (amount : str) :
  amount_text amount -> price_format (replace comma [] amount) = true.
Proof.
  intros [H|(whole & frac & -> & Hw & Hf)].
  - destruct (replace_grouped _ H). now apply price_format_whole.
  - rewrite replace_remove_app. cbn [replace flat_map].
    replace (dot =? comma) with false by reflexivity. cbn [app].
    fold (replace comma [] frac).
    destruct (replace_grouped _ Hw), (replace_grouped _ Hf).
    now apply price_format_fraction.
Qed.

(** What the normalizer returns for a text of the expected shape. *)
Lemma convert_labelled (b : bytes) (label pad1 pad2 amount : str) (sym : Z) :
  Utf8.decode b = Ok (label ++ colon :: pad1 ++ sym :: amount ++ pad2) ->
  forallb isspace pad1 = true -> forallb isspace pad2 = true ->
  isspace sym = false -> sym <> colon ->
  forallb amount_char amount = true ->
  convert_to_price (VBytes b) = Ok (replace comma [] amount).
Proof.
  intros Hdec Hp1 Hp2 Hsym Hcol Ham.
  assert (Hplain : forall c, c ∈ amount -> isspace c = false /\ c <> colon).
  { intros c Hc. apply amount_char_plain.
    rewrite forallb_forall in Ham. apply Ham. now apply list_elem_of_In. }
  assert (Hblank : forall pad c, forallb isspace pad = true -> c ∈ pad -> c <> colon).
  { intros pad c Hpad Hc ->. rewrite forallb_forall in Hpad.
    apply list_elem_of_In in Hc. apply Hpad in Hc. discriminate. }
  unfold convert_to_price. rewrite Hdec. cbn [mbind result_bind].
  rewrite last_segment.
  - cbn [fmap result_fmap]. unfold strip.
    change (pad1 ++ sym :: amount ++ pad2) with (pad1 ++ (sym :: amount) ++ pad2).
    rewrite strip_by_padded; [reflexivity | assumption | assumption |].
    cbn [forallb]. rewrite Hsym. cbn [negb andb].
    rewrite forallb_forall. intros c Hc. apply list_elem_of_In, Hplain in Hc as [-> _].
    reflexivity.
  - rewrite elem_of_app, elem_of_cons, elem_of_app.
    intros [H|[H|[H|H]]].
    + now apply (Hblank pad1 colon Hp1).
    + congruence.
    + now apply Hplain in H as [_ H].
    + now apply (Hblank pad2 colon Hp2).
Qed.

(** The decoder on well-formed and ill-formed bytes: an emoji of four
    bytes, an overlong form, a surrogate, a truncated sequence; and the
    normalizer on bytes that are not UTF-8. *)
Example decode_cases :
  Utf8.decode [xf0; x9f; x98; x80] = Ok [0x1F600] /\
  Utf8.encode [0x1F600] = Ok [xf0; x9f; x98; x80] /\
  Utf8.decode [xc0; x80] = Raise UnicodeDecodeError /\
  Utf8.decode [xed; xa0; x80] = Raise UnicodeDecodeError /\
  Utf8.decode [xe2; x82] = Raise UnicodeDecodeError /\
  convert_to_price (VBytes [xff; x3a; x31]) = Ok not_available.
Proof. repeat split; reflexivity. Qed.

Lemma convert_total (v : value) :
  exists out, convert_to_price v = Ok out /\ comma ∉ out.
Proof.
  assert (Hna : comma ∉ not_available).
  { intros H. apply list_elem_of_In in H. vm_compute in H. intuition discriminate. }
  destruct v as [|n|s|b]; try (exists not_available; split; [reflexivity|exact Hna]).
  unfold convert_to_price.
  destruct (Utf8.decode b) as [text|e] eqn:Hdec; cbn [mbind result_bind].
  - destruct (getitem_split_neg1 colon text) as [seg ->].
    cbn [fmap result_fmap]. eexists. split; [reflexivity|].
    apply replace_remove_not_in.
  - apply decode_raises in Hdec as ->. now exists not_available.
Qed.

(** C1, as stated, fails: for the label text [Price: Rs.500] the normalizer
    drops one character of the currency mark and returns [s.500], which is
    neither the sentinel nor of the form [[0-9]+(\.[0-9]+)?]. *)
Lemma convert_to_price_not_canonical :
  exists out,
    convert_to_price (VBytes (blit "Price: Rs.500")) = Ok out /\
    ~ canonical_price out.
Proof.
  exists (lit "s.500"). split; [reflexivity|].
  intros [H|[H _]]; vm_compute in H; discriminate.
Qed.

(** C1 (amended): the price normalizer returns for every input, and what it
    returns never contains a thousands separator; when the decoded text has
    the shape [<label>: <currencySymbol><amount>] the result matches
    [[0-9]+(\.[0-9]+)?]; in particular the bytes of [Price: $1,249.50]
    normalize to [1249.50]. *)
Theorem convert_to_price_canonical :
  (forall v, exists out, convert_to_price v = Ok out /\ comma ∉ out) /\
  (forall b text,
     Utf8.decode b = Ok text -> labelled_price text ->
     exists out,
       convert_to_price (VBytes b) = Ok out /\
       price_format out = true /\ comma ∉ out) /\
  convert_to_price (VBytes (blit "Price: $1,249.50")) = Ok (lit "1249.50").
Proof.
  split; [exact convert_total|]. split; [|reflexivity].
  intros b text Hdec (label & pad1 & sym & amount & pad2 & -> & Hp1 & Hp2 & Hsym & Hcol & Ham).
  exists (replace comma [] amount). split; [|split].
  - apply (convert_labelled b label pad1 pad2 amount sym);
      auto using amount_text_chars.
  - now apply replace_amount.
  - apply replace_remove_not_in.
Qed.

Lemma convert_to_price_canonical_witness :
  exists out,
    convert_to_price (VBytes (blit "Price: $1,249.50")) = Ok out /\
    price_format out = true /\ comma ∉ out.
Proof.
  apply (proj1 (proj2 convert_to_price_canonical)) with (text := lit "Price: $1,249.50").
  - reflexivity.
  - exists (lit "Price"), (lit " "), 0x24, (lit "1,249.50"), [].
    repeat split; try reflexivity; try discriminate.
    right. exists (lit "1,249"), (lit "50"). repeat split; reflexivity.
Defined.

(** C2: on inputs without a colon, or with nothing after the last colon, the
    normalizer does not return the sentinel.  The empty bytes and [Price:]
    give the empty string, [1,299] gives [299]; no exception leaves the
    function, but the handler for [IndexError] is never reached, since
    neither [split(":")[-1]] nor the slice [[1:]] raises. *)
Theorem convert_to_price_empty_segment :
  convert_to_price (VBytes []) = Ok [] /\
  convert_to_price (VBytes (blit "Price:")) = Ok [] /\
  convert_to_price (VBytes (blit "1,299")) = Ok (lit "299") /\
  [] <> not_available /\ lit "299" <> not_available /\
  forall v, exists out, convert_to_price v = Ok out.
Proof.
  repeat split; try reflexivity; try discriminate.
  intros v. destruct (convert_total v) as (out & Hout & _). eauto.
Qed.

(** C10: every input that is not a bytes value, the string [Not Available]
    among them, is normalized to the sentinel; so a page without the
    visually-hidden price element, for which the extractor passes that
    string, gets the sentinel as its original price. *)
Theorem convert_to_price_not_bytes :
  (forall v, isinstance_bytes v = false -> convert_to_price v = Ok not_available) /\
  convert_to_price (VStr (lit "Not Available")) = Ok not_available /\
  (forall soup url d,
     Bs4.find soup (lit "span") (lit "a-size-small aok-offscreen") = None ->
     page_fields soup url = Ok d ->
     original_price d = Some not_available).
Proof.
  split; [|split; [reflexivity|]].
  - intros [|n|s|b] H; try reflexivity. discriminate.
  - intros soup url d Hfind. unfold page_fields. rewrite Hfind.
    destruct (getitem (split slash url) 3); cbn; [|discriminate].
    intros [= <-]. reflexivity.
Qed.

Lemma convert_to_price_not_bytes_witness :
  convert_to_price (VInt 12495) = Ok not_available /\
  original_price
    (Some (lit "wireless mouse"), Some (lit "B0ABCXYZ12"), Some not_available,
     Some not_available, Some not_available) = Some not_available.
Proof.
  split.
  - apply (proj1 convert_to_price_not_bytes). reflexivity.
  - apply (proj2 (proj2 convert_to_price_not_bytes)) with
      (soup := [Bs4.Tag (lit "html") [] [Bs4.NavigableString (lit "no price")]])
      (url := lit "https://site.example/wireless-mouse/dp/B0ABCXYZ12");
      reflexivity.
Defined.

End PriceNormalizer.

(* ===================================================================== *)
(** ** The page extractor and the loop of [main] *)
(* ===================================================================== *)

(** Runs the statements of the world monad that do not depend on the world. *)
Ltac run :=
  cbv [mbind M_bind mret M_ret try_except time_sleep requests_get lift raise
       print];
  cbn [files stdin stdout slept calls server encodable].

Section Extractor.

(** When the call of [requests.get] returns, the extractor returns the
    record of what it returned and never raises; it has slept two seconds
    and made that one call, and left files and console input alone. *)
Lemma extract_returns (url : option str) (w : World) (r : result Bs4.soup) :
  response w url = Returns r ->
  exists w',
    extract_product_details_and_info url w
      = Some (Ok (record_of r url), w') /\
    files w' = files w /\ stdin w' = stdin w /\ server w' = server w /\
    encodable w' = encodable w /\
    slept w' = (slept w + 2)%nat /\ calls w' = S (calls w).
Proof.
  unfold extract_product_details_and_info, record_of, response. intros Hget.
  run. rewrite Hget.
  destruct r as [soup|e]; [destruct url as [u|]|]; cbn [answer_to] in Hget.
  - destruct (page_fields soup u) as [d|e];
      (eexists; split; [reflexivity|cbn; auto 10]).
  - discriminate.
  - eexists; split; [reflexivity|cbn; auto 10].
Qed.


Lemma writerow_appends (out : str) (row : list (option str)) (w : World)
    (rows : list (list str)) :
  files w !! out = Some (File rows) ->
  writable w (csv_cell <$> row) = true ->
  writerow out row w
    = Some (Ok tt, set_files (<[out := File (rows ++ [csv_cell <$> row])]> (files w)) w).
Proof. intros H Hw. unfold writerow. now rewrite H, Hw. Qed.

Lemma writerow_refuses (out : str) (row : list (option str)) (w : World)
    (rows : list (list str)) :
  files w !! out = Some (File rows) ->
  writable w (csv_cell <$> row) = false ->
  writerow out row w = Some (Raise UnicodeEncodeError, w).
Proof. intros H Hw. unfold writerow. now rewrite H, Hw. Qed.

(** One turn of the loop, when the call returns: the row of the URL is
    appended to the output if the encoding of the file can hold it, and
    [UnicodeEncodeError] leaves the loop, with the file as it was, if not. *)
Lemma main_loop_step (out : str) (url : option str) (w : World)
    (rows : list (list str)) (r : result Bs4.soup) :
  files w !! out = Some (File rows) ->
  response w url = Returns r ->
  exists w',
    main_loop out [url] w
      = Some (if writable w (row_of url (record_of r url))
              then Ok tt else Raise UnicodeEncodeError, w') /\
    files w'
      = (if writable w (row_of url (record_of r url))
         then <[out := File (rows ++ [row_of url (record_of r url)])]> (files w)
         else files w) /\
    stdin w' = stdin w /\ server w' = server w /\
    encodable w' = encodable w /\
    slept w' = (slept w + 2)%nat /\ calls w' = S (calls w).
Proof.
  intros Hout Hget.
  destruct (extract_returns url w r Hget)
    as (w1 & Hrun & Hf & Hi & Hs & He & Hsl & Hc).
  unfold main_loop. cbn [for_each]. unfold mbind at 1, M_bind at 1.
  unfold mbind at 1, M_bind at 1. rewrite Hrun.
  destruct (record_of r url) as [[[[name a] op] dp] rt] eqn:Hd.
  assert (Hw : writable w1 = writable w) by (unfold writable; now rewrite He).
  destruct (writable w _) eqn:Hrow.
  - rewrite (writerow_appends out _ w1 rows);
      [| now rewrite Hf | now rewrite Hw].
    cbn. eexists. split; [reflexivity|]. cbn. rewrite Hf. auto 10.
  - rewrite (writerow_refuses out _ w1 rows);
      [| now rewrite Hf | now rewrite Hw].
    eexists. split; [reflexivity|]. auto 10.
Qed.

(** The fields of a page that was extracted without an exception: all but
    the ASIN are strings, the ASIN is what the search in the URL gives. *)
Lemma page_fields_shape (soup : Bs4.soup) (url : str) (d : details) :
  page_fields soup url = Ok d ->
  exists name op dp r, d = (Some name, Re.search url, Some op, Some dp, Some r).
Proof.
  unfold page_fields.
  destruct (getitem (split slash url) 3) as [seg|e]; cbn; [|discriminate].
  match goal with
  | |- context [mbind _ ?m] => destruct m as [v|e]; cbn; [|discriminate]
  end.
  destruct (convert_to_price v) as [op|e]; cbn; [|discriminate].
  destruct (Re.search url); intros [= <-]; eauto.
Qed.

(** The extractor on a page that has the three elements. *)
Example page_fields_priced_page :
  page_fields priced_page mouse_url
    = Ok (Some (lit "wireless mouse"), Some (lit "B0ABCXYZ12"),
          Some (lit "1299.00"), Some (lit "999."),
          Some (lit "4.3 out of 5 stars")).
Proof. reflexivity. Qed.




(** C6: for the URL [https://site.example/wireless-mouse/dp/B0ABCXYZ12] and
    a page that has none of the three elements, the extractor returns the
    product name [wireless mouse], the fourth segment of the URL with its
    hyphen replaced, the ASIN [B0ABCXYZ12], and the sentinel for original
    price, discounted price and rating. *)
Theorem extract_wireless_mouse (w : World) (soup : Bs4.soup) :
  server w (calls w) mouse_url = Returns (Ok soup) ->
  Bs4.find soup (lit "span") (lit "a-size-small aok-offscreen") = None ->
  Bs4.find soup (lit "span") (lit "a-price-whole") = None ->
  Bs4.find soup (lit "span") (lit "a-icon-alt") = None ->
  getitem (split slash mouse_url) 3 = Ok (lit "wireless-mouse") /\
  exists w',
    extract_product_details_and_info (Some mouse_url) w
      = Some (Ok (Some (lit "wireless mouse"), Some (lit "B0ABCXYZ12"),
                  Some not_available, Some not_available, Some not_available),
              w').
Proof.
  intros Hget H1 H2 H3. split; [reflexivity|].
  destruct (extract_returns (Some mouse_url) w (Ok soup) Hget) as (w' & Hrun & _).
  exists w'. rewrite Hrun. unfold record_of.
  unfold page_fields. rewrite H1, H2, H3. reflexivity.
Qed.

Lemma extract_wireless_mouse_witness :
  getitem (split slash mouse_url) 3 = Ok (lit "wireless-mouse") /\
  exists w',
    extract_product_details_and_info (Some mouse_url) online_world
      = Some (Ok (Some (lit "wireless mouse"), Some (lit "B0ABCXYZ12"),
                  Some not_available, Some not_available, Some not_available),
              w').
Proof.
  apply (extract_wireless_mouse online_world bare_page); reflexivity.
Defined.

End Extractor.

(* ===================================================================== *)
(** ** The search for the ASIN *)
(* ===================================================================== *)

Section Asin.

Lemma starts_with_app (p s : str) :
  Re.starts_with p s = true -> exists r, s = p ++ r.
Proof.
  revert s. induction p as [|a p IH]; intros s; cbn.
  - eauto.
  - destruct s as [|b s]; [discriminate|].
    rewrite andb_true_iff, Z.eqb_eq. intros [-> H].
    destruct (IH s H) as [r ->]. eauto.
Qed.

Lemma starts_with_refl (p r : str) : Re.starts_with p (p ++ r) = true.
Proof. induction p as [|a p IH]; cbn; [reflexivity|]. now rewrite Z.eqb_refl. Qed.

Lemma take_while_split (p : Z -> bool) (s : str) :
  exists rest,
    s = Re.take_while p s ++ rest /\
    forallb p (Re.take_while p s) = true /\ stops p rest.
Proof.
  induction s as [|c s (rest & Heq & Hall & Hstop)]; cbn.
  - exists []. now repeat split.
  - destruct (p c) eqn:Hc.
    + exists rest. cbn. rewrite Hc, Hall, <- Heq. now repeat split.
    + exists (c :: s). now repeat split.
Qed.

Lemma match_here_Some (s g : str) :
  Re.match_here s = Some g ->
  exists post,
    s = lit "/dp/" ++ g ++ post /\ g <> [] /\
    forallb Re.asin_char g = true /\ stops Re.asin_char post.
Proof.
  unfold Re.match_here.
  destruct (Re.starts_with (lit "/dp/") s) eqn:Hpre; [|discriminate].
  apply starts_with_app in Hpre as [r ->].
  replace (skipn 4 (lit "/dp/" ++ r)) with r by reflexivity.
  destruct (take_while_split Re.asin_char r) as (post & Heq & Hall & Hstop).
  destruct (Re.take_while Re.asin_char r) as [|c g'] eqn:Htw; [discriminate|].
  intros [= <-]. exists post. rewrite <- Heq. now repeat split.
Qed.

Lemma match_here_None (s : str) (c : Z) (post : str) :
  Re.match_here s = None -> s = lit "/dp/" ++ c :: post ->
  Re.asin_char c = false.
Proof.
  intros Hm ->. unfold Re.match_here in Hm.
  rewrite starts_with_refl in Hm.
  replace (skipn 4 (lit "/dp/" ++ c :: post)) with (c :: post) in Hm by reflexivity.
  cbn [Re.take_while] in Hm. destruct (Re.asin_char c); [discriminate|reflexivity].
Qed.

(** What the search returns: the longest run of class characters after the
    leftmost [/dp/] that such a character follows; [None] when there is no
    such place in the string. *)
Lemma search_spec (url : str) :
  match Re.search url with
  | Some g =>
      exists pre post,
        url = pre ++ lit "/dp/" ++ g ++ post /\ g <> [] /\
        forallb Re.asin_char g = true /\ stops Re.asin_char post /\
        forall pre' c post',
          url = pre' ++ lit "/dp/" ++ c :: post' -> Re.asin_char c = true ->
          (length pre <= length pre')%nat
  | None =>
      forall pre' c post',
        url = pre' ++ lit "/dp/" ++ c :: post' -> Re.asin_char c = false
  end.
Proof.
  induction url as [|c0 s IH].
  - cbn. intros [|x pre'] c post' H; discriminate.
  - cbn [Re.search]. destruct (Re.match_here (c0 :: s)) as [g|] eqn:Hm.
    + apply match_here_Some in Hm as (post & Heq & Hg & Hall & Hstop).
      exists [], post. repeat split; auto. intros. cbn. lia.
    + destruct (Re.search s) as [g|] eqn:Hs.
      * destruct IH as (pre & post & -> & Hg & Hall & Hstop & Hmin).
        exists (c0 :: pre), post. repeat split; auto.
        intros [|x pre'] c post' Heq Hc.
        -- rewrite (match_here_None _ c post' Hm Heq) in Hc. discriminate.
        -- injection Heq as -> Heq. cbn [length].
           apply le_n_S, (Hmin pre' c post' Heq Hc).
      * intros [|x pre'] c post' Heq.
        -- exact (match_here_None _ c post' Hm Heq).
        -- injection Heq as -> Heq. exact (IH pre' c post' Heq).
Qed.

(** C5, as stated, fails: the URL [https://site.example/item/dp/b0abcxyz12]
    has the segment [/dp/b0abcxyz12], an alphanumeric run in lower case, and
    the extractor leaves the ASIN absent; of [/dp/B0ABCxyz12] it takes the
    upper-case part [B0ABC] only. *)
Lemma lowercase_run_not_extracted :
  (exists pre run,
     lowercase_url = pre ++ lit "/dp/" ++ run /\ run <> [] /\
     forallb alnum run = true) /\
  (exists d, page_fields bare_page lowercase_url = Ok d /\ asin d = None) /\
  Re.search (lit "https://site.example/item/dp/B0ABCxyz12") = Some (lit "B0ABC").
Proof.
  split; [|split; [|reflexivity]].
  - exists (lit "https://site.example/item"), (lit "b0abcxyz12").
    split; [reflexivity|]. split; [discriminate | reflexivity].
  - eexists. split; reflexivity.
Qed.

(** C5 (amended): the ASIN of an extracted record is what the search for
    [/dp/([A-Z0-9]+)] in the URL gives: the longest run of upper-case ASCII
    letters and digits after the leftmost [/dp/] that is followed by such a
    character, and [None] when the URL has no such place. *)
Theorem asin_is_first_uppercase_run (url : str) :
  match Re.search url with
  | Some g =>
      exists pre post,
        url = pre ++ lit "/dp/" ++ g ++ post /\ g <> [] /\
        forallb Re.asin_char g = true /\ stops Re.asin_char post /\
        forall pre' c post',
          url = pre' ++ lit "/dp/" ++ c :: post' -> Re.asin_char c = true ->
          (length pre <= length pre')%nat
  | None =>
      forall pre' c post',
        url = pre' ++ lit "/dp/" ++ c :: post' -> Re.asin_char c = false
  end /\
  forall soup d, page_fields soup url = Ok d -> asin d = Re.search url.
Proof.
  split; [apply search_spec|].
  intros soup d Hd. apply page_fields_shape in Hd as (name & op & dp & r & ->).
  reflexivity.
Qed.

Lemma asin_is_first_uppercase_run_witness :
  asin (Some (lit "wireless mouse"), Some (lit "B0ABCXYZ12"), Some not_available,
        Some not_available, Some not_available)
    = Re.search mouse_url /\
  Re.search mouse_url = Some (lit "B0ABCXYZ12").
Proof.
  split; [|reflexivity].
  apply (proj2 (asin_is_first_uppercase_run mouse_url) bare_page). reflexivity.
Defined.

End Asin.

Section Batch.

Lemma main_loop_cons (out : str) (u : option str) (us : list (option str))
    (w w1 : World) :
  main_loop out [u] w = Some (Ok tt, w1) ->
  main_loop out (u :: us) w = main_loop out us w1.
Proof.
  unfold main_loop. cbn [for_each]. cbv [mbind M_bind mret M_ret].
  destruct (extract_product_details_and_info u w) as [[[d|e] w2]|];
    try discriminate.
  destruct d as [[[[name a] op] dp] r].
  destruct (writerow out _ w2) as [[[[]|e] w3]|]; try discriminate.
  intros [= ->]. reflexivity.
Qed.

(** An exception in one turn leaves the loop: the later URLs are not
    visited. *)
Lemma main_loop_cons_raise (out : str) (u : option str)
    (us : list (option str)) (w w1 : World) (e : exn) :
  main_loop out [u] w = Some (Raise e, w1) ->
  main_loop out (u :: us) w = Some (Raise e, w1).
Proof.
  unfold main_loop. cbn [for_each]. cbv [mbind M_bind mret M_ret].
  destruct (extract_product_details_and_info u w) as [[[d|e'] w2]|];
    try discriminate; [|intros H; exact H].
  destruct d as [[[[name a] op] dp] r].
  destruct (writerow out _ w2) as [[[[]|e'] w3]|]; try discriminate.
  intros H; exact H.
Qed.


Lemma loop_rows_length (srv : nat -> str -> answer) (urls : list (option str)) :
  forall n planned,
    loop_rows srv n urls = Some planned -> length planned = length urls.
Proof.
  induction urls as [|u us IH]; intros n planned; cbn [loop_rows].
  - now intros [= <-].
  - destruct (answer_to srv n u) as [|r]; [discriminate|].
    destruct (loop_rows srv (S n) us) as [pl|] eqn:Hpl; [|discriminate].
    intros [= <-]. cbn [length]. f_equal. now apply (IH (S n)).
Qed.



(** When no call hangs, the loop has rows to hand to the writer for every
    list of URLs. *)
Lemma loop_rows_total (srv : nat -> str -> answer) (urls : list (option str)) :
  (forall n u, srv n u <> Hangs) ->
  forall n, exists planned, loop_rows srv n urls = Some planned.
Proof.
  intros Hsrv. induction urls as [|u us IH]; intros n; cbn [loop_rows].
  - now exists [].
  - destruct (IH (S n)) as (pl & ->).
    destruct (answer_to srv n u) as [|r] eqn:Hget.
    + destruct u as [u|]; cbn [answer_to] in Hget; [|discriminate].
      now apply Hsrv in Hget.
    + eexists. reflexivity.
Qed.

Lemma written_rows_all (ok : list str -> bool) (planned : list (list str)) :
  forallb ok planned = true -> written_rows ok planned = planned.
Proof.
  induction planned as [|row rest IH]; [reflexivity|].
  cbn [forallb written_rows]. destruct (ok row); [|discriminate].
  cbn [andb]. intros H. now rewrite IH.
Qed.

Lemma written_rows_short (ok : list str -> bool) (planned : list (list str)) :
  forallb ok planned = false ->
  (length (written_rows ok planned) < length planned)%nat /\
  exists bad, planned !! length (written_rows ok planned) = Some bad /\
              ok bad = false.
Proof.
  induction planned as [|row rest IH]; [discriminate|].
  cbn [forallb written_rows]. destruct (ok row) eqn:Hrow; cbn [andb length].
  - intros H. destruct (IH H) as (Hlt & bad & Hbad & Hno).
    split; [lia|]. now exists bad.
  - intros _. split; [lia|]. now exists row.
Qed.



(** The loop over any list of URLs whose calls return, from any world in
    which the output file is open.  It appends the rows of the URLs, in
    order, up to the first row the encoding of the file cannot hold; at
    that row the writer raises and the loop is left.  It makes one call and
    one pause per URL it has visited. *)
Lemma main_loop_planned (out : str) (urls : list (option str)) :
  forall (w : World) (rows0 planned : list (list str)),
    files w !! out = Some (File rows0) ->
    loop_rows (server w) (calls w) urls = Some planned ->
    exists w',
      main_loop out urls w
        = Some (if forallb (writable w) planned
                then Ok tt else Raise UnicodeEncodeError, w') /\
      files w'
        = <[out := File (rows0 ++ written_rows (writable w) planned)]> (files w) /\
      stdin w' = stdin w /\ server w' = server w /\
      encodable w' = encodable w /\
      slept w' = (slept w + 2 * turns (writable w) planned)%nat /\
      calls w' = (calls w + turns (writable w) planned)%nat.
Proof.
  unfold turns.
  induction urls as [|u us IH]; intros w rows0 planned Hout; cbn [loop_rows].
  - intros [= <-]. exists w. cbn [forallb written_rows length Nat.min].
    split; [reflexivity|]. rewrite app_nil_r, Nat.mul_0_r, !Nat.add_0_r.
    split; [symmetry; now apply insert_id|auto 10].
  - destruct (answer_to (server w) (calls w) u) as [|r] eqn:Hget; [discriminate|].
    destruct (loop_rows (server w) (S (calls w)) us) as [pl|] eqn:Hpl;
      [|discriminate].
    intros [= <-].
    destruct (main_loop_step out u w rows0 r Hout Hget)
      as (w1 & Hstep & Hf1 & Hi1 & Hs1 & He1 & Hsl1 & Hc1).
    assert (Hw : writable w1 = writable w) by (unfold writable; now rewrite He1).
    cbn [forallb written_rows].
    destruct (writable w (row_of u (record_of r u))) eqn:Hrow; cbn [andb].
    + destruct (IH w1 (rows0 ++ [row_of u (record_of r u)]) pl)
        as (w' & Hrun & Hf & Hi & Hs & He & Hsl & Hc).
      { rewrite Hf1. apply lookup_insert_eq. }
      { now rewrite Hs1, Hc1. }
      rewrite Hw in Hrun, Hf, Hsl, Hc.
      exists w'. rewrite (main_loop_cons out u us w w1 Hstep).
      split; [exact Hrun|]. split; [|split; [|split; [|split; [|split]]]].
      * rewrite Hf, Hf1, insert_insert_eq, <- app_assoc. reflexivity.
      * congruence.
      * congruence.
      * congruence.
      * rewrite Hsl, Hsl1. cbn [length]. lia.
      * rewrite Hc, Hc1. cbn [length]. lia.
    + exists w1. rewrite (main_loop_cons_raise out u us w w1 _ Hstep).
      split; [reflexivity|]. rewrite app_nil_r.
      split; [rewrite Hf1; symmetry; now apply insert_id|].
      cbn [length]. repeat split; auto; lia.
Qed.




End Batch.

(* ===================================================================== *)
(** ** The unique output file name *)
(* ===================================================================== *)

Section UniqueName.

Lemma lit_inj (s1 s2 : string) : lit s1 = lit s2 -> s1 = s2.
Proof.
  unfold lit. intros H.
  rewrite <- (string_of_list_ascii_of_string s1),
          <- (string_of_list_ascii_of_string s2).
  f_equal. revert H.
  generalize (list_ascii_of_string s1) (list_ascii_of_string s2).
  intros l1. induction l1 as [|a l1 IH]; intros [|b l2]; cbn; try discriminate.
  - reflexivity.
  - intros [= Hab Hl]. f_equal; [|now apply IH].
    apply N2Z.inj in Hab.
    rewrite <- (ascii_N_embedding a), <- (ascii_N_embedding b). now f_equal.
Qed.

Lemma str_of_nat_inj (i j : nat) : str_of_nat i = str_of_nat j -> i = j.
Proof.
  unfold str_of_nat. intros H. apply lit_inj in H.
  apply DecimalNat.Unsigned.to_uint_inj.
  pose proof (NilEmpty.usu (Nat.to_uint i)) as Hi.
  pose proof (NilEmpty.usu (Nat.to_uint j)) as Hj.
  rewrite H in Hi. congruence.
Qed.

Lemma candidate_inj (name : str) (i j : nat) :
  candidate name (S i) = candidate name (S j) -> i = j.
Proof.
  unfold candidate. intros H.
  apply app_inv_head, app_inv_head, app_inv_tail, str_of_nat_inj in H.
  congruence.
Qed.

Lemma exists_b_dom (w : World) (path : str) :
  exists_b w path = true <-> path ∈ dom (files w).
Proof. unfold exists_b. rewrite bool_decide_eq_true, elem_of_dom. reflexivity. Qed.

(** There are more names with a suffix than files: one of the first is free. *)
Lemma some_candidate_free (w : World) (name : str) :
  exists k, (k <= size (files w))%nat /\ exists_b w (candidate name (S k)) = false.
Proof.
  set (n := size (files w)).
  set (names := (fun k => candidate name (S k)) <$> seq 0 (S n)).
  destruct (decide (Forall (fun p => exists_b w p = true) names)) as [Hall|Hnot].
  - exfalso.
    assert (Hnodup : NoDup names).
    { apply NoDup_fmap_2_strong; [|apply NoDup_seq].
      intros x y _ _. apply candidate_inj. }
    assert (Hsub : list_to_set names ⊆ dom (files w)).
    { intros p Hp. apply elem_of_list_to_set in Hp.
      rewrite Forall_forall in Hall. now apply exists_b_dom, Hall. }
    apply subseteq_size in Hsub.
    rewrite size_list_to_set, size_dom in Hsub by exact Hnodup.
    unfold names in Hsub. rewrite length_fmap, length_seq in Hsub.
    fold n in Hsub. lia.
  - apply not_Forall_Exists in Hnot; [|intros p; apply _].
    apply Exists_exists in Hnot as (p & Hp & Hfree).
    apply list_elem_of_fmap in Hp as (k & -> & Hk).
    apply elem_of_seq in Hk. exists k. split; [lia|].
    now apply not_true_is_false.
Qed.

(** The loop from step [i], when a name at most [d] steps ahead is free:
    it returns the first free name from [i] on. *)
Lemma unique_loop_finds (w : World) (name : str) (d : nat) :
  forall (i fuel : nat),
    exists_b w (candidate name (i + d)) = false -> (d < fuel)%nat ->
    exists k,
      (i <= k <= i + d)%nat /\
      unique_loop fuel w (splitext name).1 (splitext name).2
        (candidate name i) (S i) = Some (candidate name k) /\
      exists_b w (candidate name k) = false /\
      forall j, (i <= j < k)%nat -> exists_b w (candidate name j) = true.
Proof.
  induction d as [|d IH]; intros i fuel Hfree Hfuel;
    (destruct fuel as [|fuel]; [lia|]); cbn [unique_loop].
  - rewrite Nat.add_0_r in Hfree. rewrite Hfree.
    exists i. repeat split; auto; lia.
  - destruct (exists_b w (candidate name i)) eqn:Hi.
    + destruct (IH (S i) fuel) as (k & Hk & Hrun & Hk_free & Hbefore).
      { now replace (S i + d)%nat with (i + S d)%nat by lia. }
      { lia. }
      exists k. split; [lia|]. split; [exact Hrun|]. split; [exact Hk_free|].
      intros j Hj. destruct (decide (j = i)) as [->|Hne]; [exact Hi|].
      apply Hbefore. lia.
    + exists i. repeat split; auto; lia.
Qed.

(** With more fuel than there are files, the function returns the first name
    that does not exist. *)
Lemma get_unique_output_file_returns (w : World) (name : str) (fuel : nat) :
  (S (size (files w)) < fuel)%nat ->
  exists k,
    get_unique_output_file fuel name w = Some (Ok (candidate name k), w) /\
    exists_b w (candidate name k) = false /\
    forall j, (j < k)%nat -> exists_b w (candidate name j) = true.
Proof.
  intros Hfuel. destruct (some_candidate_free w name) as (k0 & Hk0 & Hfree).
  destruct (unique_loop_finds w name (S k0) 0 fuel Hfree) as (k & Hk & Hrun & Hk_free & Hbefore);
    [lia|].
  exists k. unfold get_unique_output_file.
  destruct (splitext name) as [base_name ext] eqn:Hsplit.
  cbn [fst snd candidate] in Hrun. rewrite Hrun.
  split; [reflexivity|]. split; [exact Hk_free|].
  intros j Hj. apply Hbefore. lia.
Qed.

(** C7: with fuel for the loop, [get_unique_output_file] returns the first
    of the names [name], [base_1.ext], [base_2.ext], ... (the number put
    before the extension) that does not exist; a requested name that does
    not exist is returned unchanged; and when [output.csv] and
    [output_1.csv] exist and [output_2.csv] does not, [output_2.csv] is
    returned. *)
Theorem get_unique_output_file_suffix (w : World) (name : str) (fuel : nat) :
  (S (size (files w)) < fuel)%nat ->
  (exists k,
     get_unique_output_file fuel name w = Some (Ok (candidate name k), w) /\
     exists_b w (candidate name k) = false /\
     forall j, (j < k)%nat -> exists_b w (candidate name j) = true) /\
  (exists_b w name = false ->
   get_unique_output_file fuel name w = Some (Ok name, w)) /\
  (name = lit "output.csv" ->
   exists_b w (lit "output.csv") = true ->
   exists_b w (lit "output_1.csv") = true ->
   exists_b w (lit "output_2.csv") = false ->
   get_unique_output_file fuel name w = Some (Ok (lit "output_2.csv"), w)).
Proof.
  intros Hfuel.
  destruct (get_unique_output_file_returns w name fuel Hfuel)
    as (k & Hrun & Hfree & Hbefore).
  split; [eauto|]. split.
  - intros Hname. destruct k as [|k]; [exact Hrun|].
    specialize (Hbefore 0%nat ltac:(lia)). cbn [candidate] in Hbefore.
    congruence.
  - intros -> H0 H1 H2.
    destruct k as [|[|[|k]]].
    + cbn [candidate] in Hfree. congruence.
    + change (candidate (lit "output.csv") 1) with (lit "output_1.csv") in Hfree.
      congruence.
    + exact Hrun.
    + specialize (Hbefore 2%nat ltac:(lia)).
      change (candidate (lit "output.csv") 2) with (lit "output_2.csv") in Hbefore.
      congruence.
Qed.

Lemma get_unique_output_file_suffix_witness :
  get_unique_output_file 4 (lit "output.csv") two_outputs_world
    = Some (Ok (lit "output_2.csv"), two_outputs_world).
Proof.
  refine (proj2 (proj2 (get_unique_output_file_suffix two_outputs_world
                          (lit "output.csv") 4 _)) _ _ _ _);
    [vm_compute; lia | reflexivity ..].
Defined.

End UniqueName.

(* ===================================================================== *)
(** ** The input file *)
(* ===================================================================== *)

Section InputFile.

Lemma foldl_insert_cells_None (k : str) (l : list (str * str)) :
  forall d : gmap str (option str),
    d !! k = None -> (forall kv, kv ∈ l -> kv.1 <> k) ->
    foldl (fun d kv => <[kv.1 := Some kv.2]> d) d l !! k = None.
Proof.
  induction l as [|kv l IH]; intros d Hd Hl; cbn; [exact Hd|].
  apply IH.
  - rewrite lookup_insert_ne; [exact Hd|]. apply Hl. left.
  - intros kv' Hin. apply Hl. now right.
Qed.

Lemma foldl_insert_rest_None (k : str) (l : list str) :
  forall d : gmap str (option str),
    d !! k = None -> k ∉ l ->
    foldl (fun d x => <[x := None]> d) d l !! k = None.
Proof.
  induction l as [|x l IH]; intros d Hd Hl; cbn; [exact Hd|].
  apply IH.
  - rewrite lookup_insert_ne; [exact Hd|]. intros ->. apply Hl. left.
  - intros Hin. apply Hl. now right.
Qed.

(** A row read under field names has no entry under any other name. *)
Lemma dict_row_lookup_None (fieldnames row : list str) (k : str) :
  k ∉ fieldnames -> dict_row fieldnames row !! k = None.
Proof.
  intros Hk. unfold dict_row. apply foldl_insert_rest_None.
  - apply foldl_insert_cells_None; [apply lookup_empty|].
    intros [k' v] Hin Heq. cbn in Heq. subst k'.
    apply Hk. eapply elem_of_zip_l, Hin.
  - intros Hin. apply Hk. eapply subseteq_drop, Hin.
Qed.

(** Reading a file that has data and no URL column raises [KeyError]. *)
Lemma read_urls_missing_column (w : World) (path : str)
    (fieldnames : list str) (data : list (list str)) (row : list str) :
  files w !! path = Some (File (fieldnames :: data)) ->
  lit "URL" ∉ fieldnames -> row ∈ data -> row <> [] ->
  read_urls_from_csv path w = Some (Raise (KeyError (lit "URL")), w).
Proof.
  intros Hfile Hcol Hrow Hne.
  unfold read_urls_from_csv, open_read. cbv [mbind M_bind lift].
  rewrite Hfile. cbn [dict_reader].
  assert (Hin : row ∈ filter (fun r => r <> []) data).
  { apply list_elem_of_filter. auto. }
  destruct (filter (fun r => r <> []) data) as [|r rs].
  - now apply not_elem_of_nil in Hin.
  - cbn [fmap list_fmap mapM].
    assert (Hget : dict_get (dict_row fieldnames r) (lit "URL")
                   = Raise (KeyError (lit "URL"))).
    { unfold dict_get. now rewrite dict_row_lookup_None. }
    rewrite Hget. reflexivity.
Qed.

End InputFile.

(* ===================================================================== *)
(** ** The run as a whole *)
(* ===================================================================== *)

Section Main.

(** Unfolds the statements of [main] up to the calls of the other
    functions of the script. *)
Ltac step_main :=
  cbv [mbind M_bind mret M_ret fmap M_fmap input os_path_isfile
       os_path_exists print];
  cbn [files stdin stdout slept calls server encodable].

Lemma error_reported_snoc_error (w : World) (out : list msg) (e : exn) :
  stdout w = out ++ [AnErrorOccurred e] -> error_reported w.
Proof. unfold error_reported. intros ->. now rewrite last_snoc. Qed.

Ltac simpl_world :=
  cbn [negb files stdin stdout slept calls server encodable].

(** C8 (amended): when the path the operator gives is not that of a file,
    or the file has rows of data and no URL column, the run ends with an
    error reported to the operator and the file system as it was: no output
    file is created or emptied, since the output file is opened only after
    the input file was checked and all URLs were read. *)
Theorem main_input_file_error (w : World) (fuel : nat) (line : str)
    (rest : list str) :
  stdin w = line :: rest ->
  (S (size (files w)) < fuel)%nat ->
  input_file_unusable w (strip_chars [0x22] line) ->
  exists w',
    main fuel w = Some (Ok tt, w') /\ files w' = files w /\ error_reported w'.
Proof.
  intros Hin Hfuel Hbad. unfold main, try_except. step_main. rewrite Hin.
  simpl_world.
  set (path := strip_chars [0x22] line) in *.
  destruct Hbad as [Hnofile|(fieldnames & data & row & Hfile & Hcol & Hrow & Hne)].
  - destruct (files w !! path) as [[|rows]|] eqn:Hp;
      [| now destruct (Hnofile rows) |];
      (eexists; split; [reflexivity|]; split; [reflexivity|];
       unfold error_reported; cbn [stdout]; now rewrite last_snoc).
  - rewrite Hfile. simpl_world.
    assert (Hread : forall w2, files w2 = files w ->
              read_urls_from_csv path w2 = Some (Raise (KeyError (lit "URL")), w2)).
    { intros w2 Hw2.
      apply (read_urls_missing_column w2 path fieldnames data row); auto.
      now rewrite Hw2. }
    destruct (exists_b _ (lit "output_details.csv")) eqn:Hout.
    + destruct rest as [|answer rest]; simpl_world.
      * eexists. split; [reflexivity|]. split; [reflexivity|].
        eapply error_reported_snoc_error. reflexivity.
      * cbn [result_fmap]. destruct (bool_decide (lower answer <> lit "y")).
        -- match goal with
           | |- context [get_unique_output_file fuel ?name ?w2] =>
               destruct (get_unique_output_file_returns w2 name fuel Hfuel)
                 as (k & Hrun & _);
               rewrite Hrun
           end.
           rewrite Hread by reflexivity. simpl_world.
           eexists. split; [reflexivity|]. split; [reflexivity|].
           eapply error_reported_snoc_error. reflexivity.
        -- rewrite Hread by reflexivity. simpl_world.
           eexists. split; [reflexivity|]. split; [reflexivity|].
           eapply error_reported_snoc_error. reflexivity.
    + rewrite Hread by reflexivity. simpl_world.
      eexists. split; [reflexivity|]. split; [reflexivity|].
      eapply error_reported_snoc_error. reflexivity.
Qed.

Lemma main_input_file_error_witness :
  (exists w',
     main 2 missing_file_world = Some (Ok tt, w') /\
     files w' = files missing_file_world /\ error_reported w') /\
  (exists w',
     main 3 wrong_column_world = Some (Ok tt, w') /\
     files w' = files wrong_column_world /\ error_reported w').
Proof.
  split.
  - apply (main_input_file_error missing_file_world 2 (lit "urls.csv") []).
    + reflexivity.
    + vm_compute. lia.
    + left. intros rows. vm_compute. discriminate.
  - apply (main_input_file_error wrong_column_world 3 (lit "urls.csv") []).
    + reflexivity.
    + vm_compute. lia.
    + right. exists [lit "Link"], [[mouse_url]], [mouse_url].
      split; [reflexivity|]. split; [|split].
      * intros H. apply list_elem_of_In in H. vm_compute in H. intuition discriminate.
      * left.
      * discriminate.
Defined.

(** C8, as stated, fails: an input file whose only row is the header [Link]
    lacks the URL column, and the run does not fail: it creates
    [output_details.csv] with the header row and reports success. *)
Lemma header_only_file_is_accepted :
  (lit "URL" ∉ [lit "Link"]) /\
  files header_only_world !! lit "urls.csv" = Some (File [[lit "Link"]]) /\
  files header_only_world !! out_csv = None /\
  exists w',
    main 1 header_only_world = Some (Ok tt, w') /\
    files w' !! out_csv = Some (File [csv_cell <$> header]) /\
    last (stdout w') = Some (ScrapingCompleted out_csv) /\
    ~ error_reported w'.
Proof.
  split.
  { intros H. apply list_elem_of_In in H. vm_compute in H. intuition discriminate. }
  split; [reflexivity|]. split; [reflexivity|].
  assert (H : match main 1 header_only_world with
              | Some (Ok tt, w') => Some (files w' !! out_csv, last (stdout w'))
              | _ => None
              end = Some (Some (File [csv_cell <$> header]),
                          Some (ScrapingCompleted out_csv)))
    by (vm_compute; reflexivity).
  destruct (main 1 header_only_world) as [[[[]|e] w']|]; try discriminate H.
  injection H as Hf Ho. exists w'. split; [reflexivity|].
  split; [exact Hf|]. split; [exact Ho|].
  unfold error_reported. rewrite Ho. tauto.
Qed.

(** A whole run: three URLs, the second request fails; the output has the
    header and three rows, the second with the URL and empty cells. *)
Example main_three_urls :
  exists w',
    main 1 three_urls_world = Some (Ok tt, w') /\
    files w' !! out_csv =
      Some (File [csv_cell <$> header;
                  [mouse_url; lit "wireless mouse"; lit "B0ABCXYZ12";
                   lit "1299.00"; lit "999."; lit "4.3 out of 5 stars"];
                  [lowercase_url; []; []; []; []; []];
                  [mouse_url; lit "wireless mouse"; lit "B0ABCXYZ12";
                   lit "1299.00"; lit "999."; lit "4.3 out of 5 stars"]]) /\
    files w' !! lit "urls.csv" = files three_urls_world !! lit "urls.csv" /\
    last (stdout w') = Some (ScrapingCompleted out_csv) /\
    slept w' = 6%nat /\ calls w' = 3%nat.
Proof.
  assert (H : match main 1 three_urls_world with
              | Some (Ok tt, w') =>
                  Some (files w' !! out_csv, files w' !! lit "urls.csv",
                        last (stdout w'), slept w', calls w')
              | _ => None
              end
              = Some (Some (File [csv_cell <$> header;
                        [mouse_url; lit "wireless mouse"; lit "B0ABCXYZ12";
                         lit "1299.00"; lit "999."; lit "4.3 out of 5 stars"];
                        [lowercase_url; []; []; []; []; []];
                        [mouse_url; lit "wireless mouse"; lit "B0ABCXYZ12";
                         lit "1299.00"; lit "999."; lit "4.3 out of 5 stars"]]),
                      files three_urls_world !! lit "urls.csv",
                      Some (ScrapingCompleted out_csv), 6%nat, 3%nat))
    by (vm_compute; reflexivity).
  destruct (main 1 three_urls_world) as [[[[]|e] w']|]; try discriminate H.
  injection H as Hf Hu Ho Hs Hc. exists w'. auto 10.
Qed.

End Main.

(* ===================================================================== *)
(** ** UTF-8: what [encode] writes, [decode] reads back *)
(* ===================================================================== *)

Section Utf8RoundTrip.

Lemma byte_val_of (z : Z) : 0 <= z < 256 -> Utf8.byte_val (Utf8.byte_of z) = z.
Proof.
  intros Hz. unfold Utf8.byte_val, Utf8.byte_of.
  destruct (Byte.of_N (Z.to_N z)) as [b|] eqn:Hb.
  - apply Byte.to_of_N in Hb. rewrite Hb. lia.
  - apply Byte.of_N_None_iff in Hb. lia.
Qed.

(** Putting [b], which fits in [n] bits, below [a] shifted by [n] bits. *)
Lemma lor_shiftl_add (a b n : Z) :
  0 <= n -> 0 <= b < 2 ^ n -> Z.lor (Z.shiftl a n) b = a * 2 ^ n + b.
Proof.
  intros Hn Hb. rewrite Z.shiftl_mul_pow2 by assumption.
  assert (Hdisj : Z.land (a * 2 ^ n) b = 0).
  { apply Z.bits_inj'. intros i Hi. rewrite Z.land_spec, Z.bits_0.
    destruct (Z.lt_ge_cases i n) as [Hlt|Hge].
    - rewrite Z.mul_pow2_bits_low by assumption. reflexivity.
    - destruct (Z.eq_dec b 0) as [->|Hb0].
      + rewrite Z.bits_0. apply andb_false_r.
      + rewrite (Z.bits_above_log2 b i); [apply andb_false_r | lia |].
        apply Z.log2_lt_pow2; [lia|].
        apply Z.lt_le_trans with (2 ^ n); [lia|].
        apply Z.pow_le_mono_r; lia. }
  rewrite <- Z.lxor_lor by assumption.
  symmetry. now apply Z.add_nocarry_lxor.
Qed.

Lemma lor_lead (lead bits n m x : Z) :
  0 <= n -> m = 2 ^ n -> lead = Z.shiftl bits n -> 0 <= x < m ->
  Z.lor lead x = bits * m + x.
Proof. intros Hn -> -> Hx. now apply lor_shiftl_add. Qed.

Lemma val_cont (x : Z) :
  0 <= x ->
  Utf8.byte_val (Utf8.byte_of (Z.lor 0x80 (Z.land x 0x3F))) = 128 + x mod 64.
Proof.
  intros Hx. change 0x3F with (Z.ones 6). rewrite Z.land_ones by lia.
  change (2 ^ 6) with 64.
  assert (Hm : 0 <= x mod 64 < 64) by (apply Z.mod_pos_bound; lia).
  rewrite (lor_lead 0x80 2 6 64) by (reflexivity || lia).
  apply byte_val_of. lia.
Qed.

(** A lead byte: the marker bits above the top [n] bits of the code point. *)
Lemma val_lead (lead bits n m k d c : Z) :
  0 <= n -> m = 2 ^ n -> lead = Z.shiftl bits n ->
  0 <= k -> d = 2 ^ k -> 0 < d ->
  0 <= c -> c / d < m -> 0 <= bits * m + c / d < 256 ->
  Utf8.byte_val (Utf8.byte_of (Z.lor lead (Z.shiftr c k))) = bits * m + c / d.
Proof.
  intros Hn Hm Hlead Hk Hd Hdpos Hc Hsmall Hbyte.
  rewrite Z.shiftr_div_pow2 by assumption. rewrite <- Hd.
  rewrite (lor_lead lead bits n m); auto.
  - now apply byte_val_of.
  - split; [|assumption]. now apply Z.div_pos.
Qed.

Ltac arith := Z.div_mod_to_equations; lia.

(** Decides the comparisons of the goal by arithmetic. *)
Ltac decide_cmp :=
  repeat match goal with
  | |- context [?a <=? ?b] =>
      first [ rewrite (proj2 (Z.leb_le a b)) by arith
            | rewrite (proj2 (Z.leb_gt a b)) by arith ]
  | |- context [?a =? ?b] =>
      first [ rewrite (proj2 (Z.eqb_eq a b)) by arith
            | rewrite (proj2 (Z.eqb_neq a b)) by arith ]
  end;
  cbn [andb orb].

(** The low bits of a byte value, and bits put side by side, as arithmetic. *)
Ltac bits_to_arith :=
  change 0x3F with (Z.ones 6); change 0x1F with (Z.ones 5);
  change 0x0F with (Z.ones 4); change 0x07 with (Z.ones 3);
  rewrite !Z.land_ones by lia;
  change (2 ^ 6) with 64; change (2 ^ 5) with 32;
  change (2 ^ 4) with 16; change (2 ^ 3) with 8.

(** The bytes of one code point, read back. *)
Lemma decode_encode_char (c : Z) (bs rest : bytes) :
  Utf8.encode_char c = Some bs ->
  Utf8.decode (bs ++ rest) = cons c <$> Utf8.decode rest.
Proof.
  unfold Utf8.encode_char.
  destruct ((c <? 0) || (0x10FFFF <? c) || ((0xD800 <=? c) && (c <=? 0xDFFF)))
    eqn:Hbad; [discriminate|].
  apply orb_false_iff in Hbad as [Hbad Hsur].
  apply orb_false_iff in Hbad as [H0 Hmax]. apply Z.ltb_ge in H0, Hmax.
  assert (Hs : c < 0xD800 \/ 0xDFFF < c).
  { apply andb_false_iff in Hsur as [H|H]; apply Z.leb_gt in H; lia. }
  clear Hsur.
  destruct (Z.leb_spec c 0x7F) as [H1|H1];
    [|destruct (Z.leb_spec c 0x7FF) as [H2|H2];
      [|destruct (Z.leb_spec c 0xFFFF) as [H3|H3]]];
    intros [= <-]; cbn [app Utf8.decode];
    unfold Utf8.cont, Utf8.between, Utf8.low6.
  - rewrite byte_val_of by lia. decide_cmp. reflexivity.
  - rewrite (val_lead 0xC0 6 5 32 6 64 c), val_cont
      by (reflexivity || arith).
    decide_cmp. f_equal. f_equal. bits_to_arith.
    rewrite (lor_shiftl_add _ _ 6) by (change (2 ^ 6) with 64; arith).
    change (2 ^ 6) with 64. arith.
  - rewrite (val_lead 0xE0 14 4 16 12 4096 c) by (reflexivity || arith).
    rewrite !Z.shiftr_div_pow2 by lia. change (2 ^ 6) with 64.
    rewrite !val_cont by arith.
    destruct (Z.eq_dec (c / 4096) 0) as [Hlow|Hlow];
      destruct (Z.eq_dec (c / 4096) 13) as [Hsurr|Hsurr];
      try (exfalso; lia); decide_cmp; f_equal; f_equal; bits_to_arith;
      rewrite (lor_shiftl_add _ _ 6) by (change (2 ^ 6) with 64; arith);
      change (2 ^ 6) with 64;
      rewrite (lor_shiftl_add _ _ 12) by (change (2 ^ 12) with 4096; arith);
      change (2 ^ 12) with 4096; arith.
  - rewrite (val_lead 0xF0 30 3 8 18 262144 c) by (reflexivity || arith).
    rewrite !Z.shiftr_div_pow2 by lia.
    change (2 ^ 6) with 64. change (2 ^ 12) with 4096.
    rewrite !val_cont by arith.
    destruct (Z.eq_dec (c / 262144) 0) as [Hlow|Hlow];
      destruct (Z.eq_dec (c / 262144) 4) as [Htop|Htop];
      try (exfalso; lia); decide_cmp; f_equal; f_equal; bits_to_arith;
      rewrite (lor_shiftl_add _ _ 6) by (change (2 ^ 6) with 64; arith);
      change (2 ^ 6) with 64;
      rewrite (lor_shiftl_add _ _ 12) by (change (2 ^ 12) with 4096; arith);
      change (2 ^ 12) with 4096;
      rewrite (lor_shiftl_add _ _ 18) by (change (2 ^ 18) with 262144; arith);
      change (2 ^ 18) with 262144; arith.
Qed.

(** The bytes of a string, read back. *)
Lemma decode_encoded (s : str) (b : bytes) :
  Utf8.encode s = Ok b -> Utf8.decode b = Ok s.
Proof.
  revert b. induction s as [|c s IH]; intros b; cbn [Utf8.encode].
  - intros [= <-]. reflexivity.
  - destruct (Utf8.encode_char c) as [bs|] eqn:Hc; [|discriminate].
    intros Hb. apply fmap_Ok in Hb as (b' & Hb' & ->).
    rewrite (decode_encode_char c bs b' Hc), (IH b' Hb'). reflexivity.
Qed.

(** X1: what [str.encode('utf-8')] (line 57) writes, [bytes.decode('utf-8')]
    (line 22) reads back: if encoding a string succeeds, decoding the bytes
    gives the string again. *)
Theorem decode_encode (s : str) (b : bytes) :
  Utf8.encode s = Ok b -> Utf8.decode b = Ok s.
Proof. apply decode_encoded. Qed.

Lemma decode_encode_witness :
  Utf8.decode [xe2; x82; xb9; x31; x2c; x32] = Ok [0x20B9; 0x31; 0x2C; 0x32].
Proof. apply (decode_encode [0x20B9; 0x31; 0x2C; 0x32]). reflexivity. Defined.

End Utf8RoundTrip.

(* ===================================================================== *)
(** ** More on the price normalizer *)
(* ===================================================================== *)

Section PriceNormalizerMore.

Lemma split_segments_no_sep (sep : Z) (s seg : str) :
  seg ∈ split sep s -> sep ∉ seg.
Proof.
  revert seg. induction s as [|c s IH]; intros seg; cbn.
  - intros ->%list_elem_of_singleton. apply not_elem_of_nil.
  - destruct (Z.eqb_spec c sep) as [->|Hne].
    + intros [->|Hin]%elem_of_cons; [apply not_elem_of_nil | now apply IH].
    + destruct (split_cons sep s) as (seg0 & segs & Hs). rewrite Hs in IH |- *.
      intros [->|Hin]%elem_of_cons.
      * intros [Heq|Hin]%elem_of_cons; [congruence|].
        apply (IH seg0); [left | exact Hin].
      * apply IH. now right.
Qed.

Lemma last_elem_of {A} (l : list A) (x : A) : last l = Some x -> x ∈ l.
Proof.
  intros H. apply last_Some in H as [l' ->]. apply elem_of_app. right. left.
Qed.

Lemma lstrip_by_subseteq (p : Z -> bool) (s : str) : lstrip_by p s ⊆ s.
Proof.
  induction s as [|c s IH]; cbn; [reflexivity|].
  destruct (p c); [|reflexivity]. intros x Hx. right. now apply IH.
Qed.

Lemma strip_subseteq (s : str) : strip s ⊆ s.
Proof.
  unfold strip, strip_by, rstrip_by. intros x Hx.
  apply list_elem_of_In, in_rev, list_elem_of_In, lstrip_by_subseteq in Hx.
  apply list_elem_of_In, in_rev, list_elem_of_In in Hx.
  now apply lstrip_by_subseteq in Hx.
Qed.

Lemma replace_remove_subseteq (old : Z) (s : str) : replace old [] s ⊆ s.
Proof.
  induction s as [|c s IH]; cbn; [reflexivity|].
  destruct (c =? old); cbn; intros x Hx.
  - right. now apply IH.
  - apply elem_of_cons in Hx as [->|Hx]; [left | right; now apply IH].
Qed.

(** The value of the normalizer on decodable bytes. *)
Lemma convert_decoded (b : bytes) (text : str) :
  Utf8.decode b = Ok text ->
  exists seg,
    last (split colon text) = Some seg /\
    convert_to_price (VBytes b)
      = Ok (replace comma [] (slice_from_1 (strip seg))).
Proof.
  intros Hdec. destruct (last (split colon text)) as [seg|] eqn:Hlast.
  - exists seg. split; [reflexivity|]. unfold convert_to_price. rewrite Hdec.
    cbn [mbind result_bind]. rewrite (getitem_last _ _ Hlast). reflexivity.
  - apply last_None in Hlast. destruct (split_cons colon text) as (x & xs & Hs).
    congruence.
Qed.

(** X2: only the text after the last colon counts.  For bytes that decode
    to [label ++ ":" ++ rest] with no colon in [rest], the normalizer returns
    [rest] without the blanks around it, without its first character and
    without commas, whatever the label is. *)
Theorem convert_to_price_after_last_colon (b : bytes) (label rest : str) :
  Utf8.decode b = Ok (label ++ colon :: rest) -> colon ∉ rest ->
  convert_to_price (VBytes b)
    = Ok (replace comma [] (slice_from_1 (strip rest))).
Proof.
  intros Hdec Hrest. unfold convert_to_price. rewrite Hdec.
  cbn [mbind result_bind]. rewrite (last_segment colon label rest Hrest).
  reflexivity.
Qed.

Lemma convert_to_price_after_last_colon_witness :
  convert_to_price (VBytes (blit "Was: 1: Now:  $2,499 "))
    = Ok (replace comma [] (slice_from_1 (strip (lit "  $2,499 ")))).
Proof.
  apply (convert_to_price_after_last_colon _ (lit "Was: 1: Now")).
  - reflexivity.
  - intros H. apply list_elem_of_In in H. vm_compute in H. intuition discriminate.
Defined.

Lemma convert_undecodable (b : bytes) (e : exn) :
  Utf8.decode b = Raise e -> convert_to_price (VBytes b) = Ok not_available.
Proof.
  intros Hdec. pose proof (decode_raises b e Hdec) as ->.
  unfold convert_to_price. now rewrite Hdec.
Qed.

(** X3: bytes that are not UTF-8 are normalized to the sentinel: the only
    exception the decoder raises is the one the function catches. *)
Theorem convert_to_price_undecodable (b : bytes) (e : exn) :
  Utf8.decode b = Raise e -> convert_to_price (VBytes b) = Ok not_available.
Proof. apply convert_undecodable. Qed.

Lemma convert_to_price_undecodable_witness :
  convert_to_price (VBytes [x31; x32; xff]) = Ok not_available.
Proof.
  apply (convert_to_price_undecodable _ UnicodeDecodeError). reflexivity.
Defined.

(** X4: the normalizer never returns a text with a colon in it. *)
Theorem convert_to_price_no_colon (v : value) :
  exists out, convert_to_price v = Ok out /\ colon ∉ out.
Proof.
  assert (Hna : colon ∉ not_available).
  { intros H. apply list_elem_of_In in H. vm_compute in H. intuition discriminate. }
  destruct v as [|n|s|b]; try (exists not_available; split; [reflexivity|exact Hna]).
  destruct (Utf8.decode b) as [text|e] eqn:Hdec.
  - destruct (convert_decoded b text Hdec) as (seg & Hlast & Hrun).
    eexists. split; [exact Hrun|]. intros Hin.
    apply replace_remove_subseteq in Hin.
    unfold slice_from_1 in Hin. apply subseteq_drop, strip_subseteq in Hin.
    now apply (split_segments_no_sep colon text seg (last_elem_of _ _ Hlast)).
  - exists not_available. now rewrite (convert_undecodable b e Hdec).
Qed.

End PriceNormalizerMore.

(* ===================================================================== *)
(** ** More on the page extractor *)
(* ===================================================================== *)

Section ExtractorMore.
Import Behaviour Cases.


Lemma getitem_nat {A} (l : list A) (n : nat) :
  getitem l (Z.of_nat n)
    = match l !! n with Some x => Ok x | None => Raise IndexError end.
Proof.
  unfold getitem. replace (Z.of_nat n <? 0) with false by (symmetry; apply Z.ltb_ge; lia).
  rewrite Nat2Z.id.
  destruct (l !! n) as [x|] eqn:Hl.
  - apply lookup_lt_Some in Hl.
    replace ((Z.of_nat n <? 0) || (Z.of_nat (length l) <=? Z.of_nat n)) with false;
      [reflexivity|].
    symmetry. apply orb_false_intro; [apply Z.ltb_ge | apply Z.leb_gt]; lia.
  - now destruct (_ || _).
Qed.










Lemma replace_one_length (old new : Z) (s : str) :
  length (replace old [new] s) = length s.
Proof.
  induction s as [|c s IH]; [reflexivity|]. cbn [replace flat_map].
  fold (replace old [new] s). destruct (c =? old); cbn; now rewrite IH.
Qed.

Lemma replace_one_elem (old new x : Z) (s : str) :
  x ∈ replace old [new] s -> x = new \/ (x ∈ s /\ x <> old).
Proof.
  induction s as [|c s IH]; cbn [replace flat_map].
  - intros H. now apply not_elem_of_nil in H.
  - fold (replace old [new] s). destruct (Z.eqb_spec c old) as [->|Hne]; cbn;
      intros [->|Hin]%elem_of_cons; auto.
    + destruct (IH Hin) as [|[? ?]]; auto. right. split; [now right|assumption].
    + right. split; [left|assumption].
    + destruct (IH Hin) as [|[? ?]]; auto. right. split; [now right|assumption].
Qed.

(** X8: the product name is read off the URL, not the page: it is the
    fourth segment between slashes with every hyphen replaced by a space,
    so it has the length of that segment and neither hyphen nor slash. *)
Theorem product_name_from_url (soup : Bs4.soup) (u : str) (d : details) :
  page_fields soup u = Ok d ->
  exists seg,
    split slash u !! 3%nat = Some seg /\
    product_name d = Some (replace hyphen (lit " ") seg) /\
    length (replace hyphen (lit " ") seg) = length seg /\
    (hyphen ∉ replace hyphen (lit " ") seg) /\
    (slash ∉ replace hyphen (lit " ") seg).
Proof.
  unfold page_fields. change 3 with (Z.of_nat 3). rewrite getitem_nat.
  destruct (split slash u !! 3%nat) as [seg|] eqn:Hseg; [|discriminate].
  cbn [fmap result_fmap mbind result_bind].
  match goal with
  | |- context [mbind _ ?m] => destruct m as [v|e]; cbn; [|discriminate]
  end.
  destruct (convert_to_price v) as [op|e]; cbn; [|discriminate].
  intros [= <-]. exists seg. split; [reflexivity|]. split; [reflexivity|].
  change (lit " ") with [0x20].
  split; [apply replace_one_length|]. split.
  - intros [H|[_ H]]%replace_one_elem; [discriminate | now apply H].
  - intros [H|[H _]]%replace_one_elem; [discriminate|].
    apply (split_segments_no_sep slash u seg); [|exact H].
    eapply list_elem_of_lookup_2, Hseg.
Qed.

Lemma product_name_from_url_witness :
  exists seg,
    split slash mouse_url !! 3%nat = Some seg /\
    Some (lit "wireless mouse") = Some (replace hyphen (lit " ") seg) /\
    length (replace hyphen (lit " ") seg) = length seg /\
    (hyphen ∉ replace hyphen (lit " ") seg) /\
    (slash ∉ replace hyphen (lit " ") seg).
Proof.
  apply (product_name_from_url priced_page mouse_url
           (Some (lit "wireless mouse"), Some (lit "B0ABCXYZ12"),
            Some (lit "1299.00"), Some (lit "999."),
            Some (lit "4.3 out of 5 stars"))).
  reflexivity.
Defined.

Lemma lstrip_by_stops (p : Z -> bool) (s : str) : stops p (lstrip_by p s).
Proof.
  induction s as [|c s IH]; cbn; [exact I|].
  destruct (p c) eqn:Hc; [exact IH | exact Hc].
Qed.

Lemma lstrip_by_keeps_last (p : Z -> bool) (l : str) (c : Z) :
  p c = false -> exists r, lstrip_by p (l ++ [c]) = r ++ [c].
Proof.
  intros Hc. induction l as [|x l IH]; cbn.
  - rewrite Hc. now exists [].
  - destruct (p x); [exact IH|]. now exists (x :: l).
Qed.

(** Stripped text has no blank at either end. *)
Lemma strip_trimmed (s : str) : trimmed (strip s).
Proof.
  unfold trimmed, strip, strip_by, rstrip_by. split.
  - pose proof (lstrip_by_stops isspace s) as Hhead.
    destruct (lstrip_by isspace s) as [|c t]; [exact I|]. cbn in Hhead.
    cbn [rev]. destruct (lstrip_by_keeps_last isspace (rev t) c Hhead) as [r ->].
    rewrite rev_app_distr. exact Hhead.
  - rewrite rev_involutive. apply lstrip_by_stops.
Qed.

(** The record of a page that was extracted, field by field. *)
Lemma page_fields_inv (soup : Bs4.soup) (u : str) (d : details) :
  page_fields soup u = Ok d ->
  exists name op,
    d = (Some name, Re.search u, Some op,
         Some match Bs4.find soup (lit "span") (lit "a-price-whole") with
              | Some el => strip (Bs4.text el)
              | None => lit "Not Available"
              end,
         Some match Bs4.find soup (lit "span") (lit "a-icon-alt") with
              | Some el => strip (Bs4.text el)
              | None => lit "Not Available"
              end).
Proof.
  unfold page_fields.
  destruct (getitem (split slash u) 3) as [seg|e]; cbn; [|discriminate].
  match goal with
  | |- context [mbind _ ?m] => destruct m as [v|e]; cbn; [|discriminate]
  end.
  destruct (convert_to_price v) as [op|e]; cbn; [|discriminate].
  intros [= <-]. do 2 eexists. destruct (Re.search u); reflexivity.
Qed.

(** X9: discounted price and rating of an extracted record are the text of
    their element, the first [span] of class [a-price-whole] and of class
    [a-icon-alt], stripped of the blanks at its ends, and the sentinel when
    the page has no such element; either way they carry no blank at either
    end. *)
Theorem page_fields_trimmed (soup : Bs4.soup) (u : str) (d : details) :
  page_fields soup u = Ok d ->
  exists dp r,
    discounted_price d = Some dp /\ product_rating d = Some r /\
    trimmed dp /\ trimmed r /\
    (forall el,
       Bs4.find soup (lit "span") (lit "a-price-whole") = Some el ->
       dp = strip (Bs4.text el)) /\
    (forall el,
       Bs4.find soup (lit "span") (lit "a-icon-alt") = Some el ->
       r = strip (Bs4.text el)) /\
    (Bs4.find soup (lit "span") (lit "a-price-whole") = None -> dp = not_available) /\
    (Bs4.find soup (lit "span") (lit "a-icon-alt") = None -> r = not_available).
Proof.
  assert (Hna : trimmed (lit "Not Available")) by (split; reflexivity).
  intros (name & op & ->)%page_fields_inv.
  do 2 eexists. split; [reflexivity|]. split; [reflexivity|].
  destruct (Bs4.find soup (lit "span") (lit "a-price-whole")),
           (Bs4.find soup (lit "span") (lit "a-icon-alt"));
    (split; [first [apply strip_trimmed | exact Hna]|]);
    (split; [first [apply strip_trimmed | exact Hna]|]);
    (split; [intros el H; first [discriminate | now injection H as <-]|]);
    (split; [intros el H; first [discriminate | now injection H as <-]|]);
    split; intros H; first [discriminate | reflexivity].
Qed.

Lemma page_fields_trimmed_witness :
  exists dp r,
    Some (lit "999.") = Some dp /\ Some (lit "4.3 out of 5 stars") = Some r /\
    trimmed dp /\ trimmed r /\
    (forall el,
       Bs4.find priced_page (lit "span") (lit "a-price-whole") = Some el ->
       dp = strip (Bs4.text el)) /\
    (forall el,
       Bs4.find priced_page (lit "span") (lit "a-icon-alt") = Some el ->
       r = strip (Bs4.text el)) /\
    (Bs4.find priced_page (lit "span") (lit "a-price-whole") = None ->
     dp = not_available) /\
    (Bs4.find priced_page (lit "span") (lit "a-icon-alt") = None ->
     r = not_available).
Proof.
  apply (page_fields_trimmed priced_page mouse_url
           (Some (lit "wireless mouse"), Some (lit "B0ABCXYZ12"),
            Some (lit "1299.00"), Some (lit "999."),
            Some (lit "4.3 out of 5 stars"))).
  reflexivity.
Defined.

(** X10: the original price of a page with the hidden price element.  The
    text of the element is stripped, encoded and handed to the normalizer,
    which decodes it again: the price is the part of the stripped text after
    its last colon, stripped, without its first character and without
    commas, and the handler for undecodable bytes is never needed. *)
Theorem original_price_from_label (soup : Bs4.soup) (u : str) (d : details)
    (el : Bs4.node) (s : str) :
  Bs4.find soup (lit "span") (lit "a-size-small aok-offscreen") = Some el ->
  Bs4.string el = Some s ->
  page_fields soup u = Ok d ->
  exists seg,
    last (split colon (strip s)) = Some seg /\
    original_price d = Some (replace comma [] (slice_from_1 (strip seg))).
Proof.
  intros Hfind Hstring. unfold page_fields. rewrite Hfind, Hstring.
  destruct (getitem (split slash u) 3) as [name|e];
    cbn [fmap result_fmap mbind result_bind]; [|discriminate].
  destruct (Utf8.encode (strip s)) as [b|e] eqn:Henc;
    cbn [fmap result_fmap mbind result_bind]; [|discriminate].
  destruct (convert_decoded b (strip s) (decode_encoded _ _ Henc)) as (seg & Hlast & Hrun).
  rewrite Hrun. cbn [fmap result_fmap mbind result_bind].
  intros [= <-]. exists seg. split; [exact Hlast|reflexivity].
Qed.

Lemma original_price_from_label_witness :
  exists seg,
    last (split colon (strip (lit " M.R.P.: " ++ [0x20B9] ++ lit "1,299.00 ")))
      = Some seg /\
    original_price
      (Some (lit "wireless mouse"), Some (lit "B0ABCXYZ12"),
       Some (lit "1299.00"), Some (lit "999."), Some (lit "4.3 out of 5 stars"))
      = Some (replace comma [] (slice_from_1 (strip seg))).
Proof.
  eapply (original_price_from_label priced_page mouse_url); reflexivity.
Defined.

End ExtractorMore.

(* ===================================================================== *)
(** ** More on the loop of [main] *)
(* ===================================================================== *)

Section BatchMore.
Import Behaviour Cases.

Lemma turns_bounds (ok : list str -> bool) (planned : list (list str)) :
  (forallb ok planned = true /\ turns ok planned = length planned) \/
  (forallb ok planned = false /\
   (0 < turns ok planned <= length planned)%nat).
Proof.
  unfold turns. destruct (forallb ok planned) eqn:Hall.
  - left. split; [reflexivity|]. rewrite (written_rows_all ok planned Hall). lia.
  - right. split; [reflexivity|].
    destruct (written_rows_short ok planned Hall) as [Hlt _]. lia.
Qed.


(** X11: the pace of the loop.  Over any list of URLs whose requests
    return, from any world with the output file open, the loop visits the
    URLs in order, all of them when it ends normally and at least one and
    at most all of them when the writer raises [UnicodeEncodeError]; for
    each URL it has visited it has slept two seconds and called
    [requests.get] once; it has read nothing from the console and has left
    every file but the output file as it was. *)
Theorem main_loop_pacing (out : str) (urls : list (option str)) (w : World)
    (rows0 planned : list (list str)) :
  files w !! out = Some (File rows0) ->
  loop_rows (server w) (calls w) urls = Some planned ->
  exists r w' k,
    main_loop out urls w = Some (r, w') /\
    (r = Ok tt /\ k = length urls \/
     r = Raise UnicodeEncodeError /\ (0 < k <= length urls)%nat) /\
    slept w' = (slept w + 2 * k)%nat /\
    calls w' = (calls w + k)%nat /\
    stdin w' = stdin w /\ server w' = server w /\
    forall p, p <> out -> files w' !! p = files w !! p.
Proof.
  intros Hout Hplan.
  destruct (main_loop_planned out urls w rows0 planned Hout Hplan)
    as (w' & Hrun & Hf & Hi & Hs & _ & Hsl & Hc).
  rewrite <- (loop_rows_length _ _ _ _ Hplan).
  exists (if forallb (writable w) planned then Ok tt else Raise UnicodeEncodeError),
         w', (turns (writable w) planned).
  split; [exact Hrun|]. split.
  { destruct (turns_bounds (writable w) planned) as [[-> Hk]|[-> Hk]]; auto. }
  repeat split; auto.
  intros q Hq. rewrite Hf. now apply lookup_insert_ne.
Qed.

Lemma main_loop_pacing_witness :
  exists r w' k,
    main_loop out_csv [Some mouse_url; None; Some short_url] priced_world
      = Some (r, w') /\
    (r = Ok tt /\ k = 3%nat \/
     r = Raise UnicodeEncodeError /\ (0 < k <= 3)%nat) /\
    slept w' = (slept priced_world + 2 * k)%nat /\
    calls w' = (calls priced_world + k)%nat /\
    stdin w' = stdin priced_world /\ server w' = server priced_world /\
    forall p, p <> out_csv -> files w' !! p = files priced_world !! p.
Proof.
  eapply (main_loop_pacing out_csv [Some mouse_url; None; Some short_url]
            priced_world []); reflexivity.
Defined.

End BatchMore.

(* ===================================================================== *)
(** ** More on the input file *)
(* ===================================================================== *)

Section InputFileMore.
Import Behaviour Cases.

Lemma last_index_None (key : str) (l : list str) :
  last_index key l = None <-> key ∉ l.
Proof.
  induction l as [|k l IH]; cbn.
  - split; [intros _; apply not_elem_of_nil | reflexivity].
  - rewrite not_elem_of_cons. destruct (last_index key l) as [i|].
    + split; [discriminate|]. intros [_ H]. now apply IH in H.
    + case_bool_decide as Hk.
      * split; [discriminate|]. intros [H _]. congruence.
      * split; [|reflexivity]. intros _. split; [congruence|]. now apply IH.
Qed.

Lemma foldl_insert_rest_lookup (key : str) (l : list str) :
  forall d : gmap str (option str),
    foldl (fun d x => <[x := None]> d) d l !! key
      = if bool_decide (key ∈ l) then Some None else d !! key.
Proof.
  induction l as [|x l IH]; intros d; cbn [foldl].
  - rewrite bool_decide_eq_false_2 by apply not_elem_of_nil. reflexivity.
  - rewrite IH.
    assert (Hdec : key ∈ l \/ key ∉ l) by (destruct (decide (key ∈ l)); auto).
    destruct Hdec as [Hin|Hnot].
    + rewrite (bool_decide_eq_true_2 (key ∈ l)) by assumption.
      rewrite (bool_decide_eq_true_2 (key ∈ x :: l)) by now right.
      reflexivity.
    + rewrite (bool_decide_eq_false_2 (key ∈ l)) by assumption.
      destruct (decide (x = key)) as [->|Hne].
      * rewrite lookup_insert_eq, bool_decide_eq_true_2; [reflexivity | left].
      * rewrite lookup_insert_ne by assumption.
        rewrite bool_decide_eq_false_2; [reflexivity|].
        rewrite not_elem_of_cons. split; [congruence|assumption].
Qed.

(** What a row holds under a key: the cell in the last column of that
    name, [None] when the row is too short for it. *)
Lemma dict_row_lookup (key : str) (fieldnames : list str) :
  forall (row : list str) (d : gmap str (option str)),
    foldl (fun d k => <[k := None]> d)
      (foldl (fun d kv => <[kv.1 := Some kv.2]> d) d (zip fieldnames row))
      (skipn (length row) fieldnames) !! key
    = match last_index key fieldnames with
      | Some i => Some (row !! i)
      | None => d !! key
      end.
Proof.
  induction fieldnames as [|k fn IH]; intros row d.
  - destruct row; reflexivity.
  - destruct row as [|v row].
    + cbn [zip zip_with length skipn]. rewrite foldl_insert_rest_lookup.
      cbn [foldl].
      destruct (last_index key (k :: fn)) as [i|] eqn:Hi.
      * rewrite bool_decide_eq_true_2; [reflexivity|].
        assert (Hdec : key ∈ k :: fn \/ key ∉ k :: fn)
          by (destruct (decide (key ∈ k :: fn)); auto).
        destruct Hdec as [Hin|Hnot]; [exact Hin|].
        apply last_index_None in Hnot. congruence.
      * apply last_index_None in Hi. now rewrite bool_decide_eq_false_2.
    + cbn [zip zip_with foldl length skipn fst snd]. rewrite IH.
      cbn [last_index]. destruct (last_index key fn) as [i|]; [reflexivity|].
      case_bool_decide as Hk.
      * subst k. now rewrite lookup_insert_eq.
      * now rewrite lookup_insert_ne.
Qed.

Lemma mapM_fmap_Ok {A B C} (f : B -> result C) (h : A -> B) (g : A -> C)
    (l : list A) :
  (forall x, x ∈ l -> f (h x) = Ok (g x)) -> mapM f (h <$> l) = Ok (g <$> l).
Proof.
  induction l as [|x l IH]; intros Hall; [reflexivity|].
  cbn [mapM fmap list_fmap]. rewrite (Hall x) by left.
  cbn [mbind result_bind]. fold (mapM f).
  change (mapM f (list_fmap A B h l)) with (mapM f (h <$> l)).
  rewrite IH by (intros y Hy; apply Hall; now right). reflexivity.
Qed.

Lemma dict_get_column (key : str) (fieldnames row : list str) (i : nat) :
  last_index key fieldnames = Some i ->
  dict_get (dict_row fieldnames row) key = Ok (row !! i).
Proof.
  intros Hcol. unfold dict_get, dict_row. now rewrite dict_row_lookup, Hcol.
Qed.

(** The URLs of a file that has a URL column. *)
Lemma read_urls_of_column (w : World) (path : str) (fieldnames : list str)
    (data : list (list str)) (i : nat) :
  files w !! path = Some (File (fieldnames :: data)) ->
  last_index (lit "URL") fieldnames = Some i ->
  read_urls_from_csv path w
    = Some (Ok ((fun row => row !! i) <$> data_rows data), w).
Proof.
  intros Hfile Hcol. unfold read_urls_from_csv, open_read.
  cbv [mbind M_bind lift]. rewrite Hfile. cbn [dict_reader].
  fold (data_rows data).
  rewrite (mapM_fmap_Ok _ _ (fun row => row !! i)); [reflexivity|].
  intros row _. now apply dict_get_column.
Qed.

(** X12: reading a file that has a URL column.  The URLs are the cells of
    the last column named [URL], one per non-empty row of data in the order
    of the file, [None] for a row too short to have that cell; the world is
    as before. *)
Theorem read_urls_column (w : World) (path : str) (fieldnames : list str)
    (data : list (list str)) (i : nat) :
  files w !! path = Some (File (fieldnames :: data)) ->
  last_index (lit "URL") fieldnames = Some i ->
  read_urls_from_csv path w
    = Some (Ok ((fun row => row !! i) <$> data_rows data), w).
Proof. apply read_urls_of_column. Qed.

Lemma read_urls_column_witness :
  read_urls_from_csv (lit "urls.csv") ragged_world
    = Some (Ok [Some short_url; None; None], ragged_world).
Proof.
  exact (read_urls_column ragged_world (lit "urls.csv")
           [lit "Name"; lit "URL"; lit "URL"]
           [[lit "a"; mouse_url; short_url]; []; [lit "b"];
            [lit "c"; lowercase_url]]
           2 eq_refl eq_refl).
Defined.

(** X13: a file without rows of data, an empty file among them, gives no
    URLs and no error, whatever its header is. *)
Theorem read_urls_no_data (w : World) (path : str) (rows : list (list str)) :
  files w !! path = Some (File rows) ->
  data_rows (tail rows) = [] ->
  read_urls_from_csv path w = Some (Ok [], w).
Proof.
  intros Hfile Hdata. unfold read_urls_from_csv, open_read.
  cbv [mbind M_bind lift]. rewrite Hfile.
  destruct rows as [|fieldnames data]; [reflexivity|].
  cbn [dict_reader tail] in *. fold (data_rows data). rewrite Hdata. reflexivity.
Qed.

Lemma read_urls_no_data_witness :
  read_urls_from_csv (lit "urls.csv") header_only_world
    = Some (Ok [], header_only_world).
Proof.
  apply (read_urls_no_data header_only_world (lit "urls.csv") [[lit "Link"]]);
    reflexivity.
Defined.

(** Reading never changes the world, and returns or raises for every file. *)
Lemma read_urls_runs (w : World) (path : str) :
  exists r, read_urls_from_csv path w = Some (r, w).
Proof.
  unfold read_urls_from_csv, open_read. cbv [mbind M_bind lift].
  destruct (files w !! path) as [[|rows]|]; eauto.
Qed.

End InputFileMore.

(* ===================================================================== *)
(** ** More on the output file and the run *)
(* ===================================================================== *)

Section MainMore.
Import Behaviour Cases.

Lemma splitext_app (p : str) : (splitext p).1 ++ (splitext p).2 = p.
Proof.
  unfold splitext. cbv zeta.
  destruct (_ && _); cbn [fst snd]; [apply firstn_skipn | apply app_nil_r].
Qed.

(** X14: the name [get_unique_output_file] returns keeps the base name and
    the extension of the requested one: it is the requested name, or has
    [_] and a positive number between the two; the world is as before. *)
Theorem get_unique_output_file_shape (w : World) (name : str) (fuel : nat) :
  (S (size (files w)) < fuel)%nat ->
  exists r mid,
    get_unique_output_file fuel name w = Some (Ok r, w) /\
    r = (splitext name).1 ++ mid ++ (splitext name).2 /\
    (mid = [] \/ exists k, mid = lit "_" ++ str_of_nat (S k)).
Proof.
  intros Hfuel.
  destruct (get_unique_output_file_returns w name fuel Hfuel) as (k & Hrun & _).
  destruct k as [|k].
  - exists name, []. split; [exact Hrun|]. split; [|now left].
    cbn [app]. symmetry. apply splitext_app.
  - exists (candidate name (S k)), (lit "_" ++ str_of_nat (S k)).
    split; [exact Hrun|]. split; [|eauto].
    cbn [candidate]. now rewrite <- !app_assoc.
Qed.

Lemma get_unique_output_file_shape_witness :
  exists r mid,
    get_unique_output_file 4 (lit "output.csv") two_outputs_world
      = Some (Ok r, two_outputs_world) /\
    r = (splitext (lit "output.csv")).1 ++ mid ++ (splitext (lit "output.csv")).2 /\
    (mid = [] \/ exists k, mid = lit "_" ++ str_of_nat (S k)).
Proof.
  apply (get_unique_output_file_shape two_outputs_world (lit "output.csv") 4).
  vm_compute. lia.
Defined.

Lemma main_unfold (fuel : nat) :
  main fuel =
  try_except
    (input_csv_path ← input prompt_path;
     let input_csv_path := strip_chars [0x22] input_csv_path in
     isfile ← os_path_isfile input_csv_path;
     if negb (isfile : bool) then print (FileDoesNotExist input_csv_path)
     else
       let output_csv_file := lit "output_details.csv" in
       output_exists ← os_path_exists output_csv_file;
       output_csv_file ←
         (if (output_exists : bool) then
            choice ← lower <$> input (prompt_overwrite output_csv_file);
            if bool_decide (choice <> lit "y")
            then get_unique_output_file fuel output_csv_file
            else mret output_csv_file
          else mret output_csv_file);
       finish input_csv_path output_csv_file)
    (fun e => print (AnErrorOccurred e)).
Proof. reflexivity. Qed.

(** The last statements of [main] once the URLs were read, when the output
    name is not that of a directory and the requests return.  The output
    file is opened, which empties it, and the header and the rows of the
    URLs are written up to the first one its encoding cannot hold; the
    success message is printed when there was none. *)
Lemma finish_planned (path name : str) (w : World) (urls : list (option str))
    (planned : list (list str)) :
  read_urls_from_csv path w = Some (Ok urls, w) ->
  files w !! name <> Some Dir ->
  loop_rows (server w) (calls w) urls = Some planned ->
  exists w',
    finish path name w
      = Some (if forallb (writable w) ((csv_cell <$> header) :: planned)
              then Ok tt else Raise UnicodeEncodeError, w') /\
    stdin w' = stdin w /\
    calls w'
      = (calls w + if writable w (csv_cell <$> header)
                   then turns (writable w) planned else 0)%nat /\
    files w'
      = <[name := File (written_rows (writable w)
                          ((csv_cell <$> header) :: planned))]> (files w) /\
    (forallb (writable w) ((csv_cell <$> header) :: planned) = true ->
     last (stdout w') = Some (ScrapingCompleted name)).
Proof.
  intros Hread Hdir Hplan. unfold finish. cbv [mbind M_bind]. rewrite Hread.
  unfold open_write.
  set (w1 := set_files (<[name := File []]> (files w)) w).
  assert (Hopen : match files w !! name with
                  | Some Dir => Some (Raise (OSError name), w)
                  | _ => Some (Ok tt, w1)
                  end = Some (Ok tt, w1)).
  { destruct (files w !! name) as [[|old]|]; [congruence|reflexivity..]. }
  rewrite Hopen. cbn [forallb written_rows].
  change (writable w) with (writable w1).
  destruct (writable w1 (csv_cell <$> header)) eqn:Hhead; cbn [andb].
  - rewrite (writerow_appends name header w1 [])
      by (assumption || apply lookup_insert_eq).
    cbn [app].
    set (w2 := set_files _ w1).
    destruct (main_loop_planned name urls w2 [csv_cell <$> header] planned)
      as (w3 & Hloop & Hf & Hi & _ & _ & _ & Hc);
      [apply lookup_insert_eq | exact Hplan |].
    rewrite Hloop. change (writable w2) with (writable w1) in *.
    assert (Hfiles : files w3
              = <[name := File ((csv_cell <$> header)
                                  :: written_rows (writable w1) planned)]> (files w)).
    { rewrite Hf. unfold w2, w1, set_files. cbn [files app].
      now rewrite !insert_insert_eq. }
    assert (Hcalls : calls w3
              = (calls w + turns (writable w1) planned)%nat) by exact Hc.
    destruct (forallb (writable w1) planned).
    + unfold print. eexists. split; [reflexivity|]. cbn [stdin files stdout calls].
      split; [exact Hi|]. split; [exact Hcalls|]. split; [exact Hfiles|].
      intros _. apply last_snoc.
    + eexists. split; [reflexivity|]. split; [exact Hi|].
      split; [exact Hcalls|]. split; [exact Hfiles|]. discriminate.
  - rewrite (writerow_refuses name header w1 [])
      by (assumption || apply lookup_insert_eq).
    exists w1. split; [reflexivity|]. split; [reflexivity|].
    split; [cbn; lia|]. split; [reflexivity|]. discriminate.
Qed.

(** The last statements of [main] when every request returns: they end, and
    write to no file but the output file; when they end normally the
    success message was printed last. *)
Lemma finish_runs (path name : str) (w : World) :
  never_hangs w ->
  exists r w',
    finish path name w = Some (r, w') /\
    stdin w' = stdin w /\
    (forall p, p <> name -> files w' !! p = files w !! p) /\
    (r = Ok tt -> last (stdout w') = Some (ScrapingCompleted name)).
Proof.
  intros Hlive.
  destruct (read_urls_runs w path) as [[urls|e] Hread].
  - assert (Hcase : files w !! name = Some Dir \/ files w !! name <> Some Dir).
    { destruct (files w !! name) as [[|old]|]; [now left | right..]; congruence. }
    destruct Hcase as [Hdir|Hdir].
    + exists (Raise (OSError name)), w. unfold finish. cbv [mbind M_bind].
      rewrite Hread. unfold open_write. rewrite Hdir.
      repeat split; auto; discriminate.
    + destruct (loop_rows_total (server w) urls Hlive (calls w)) as [planned Hplan].
      destruct (finish_planned path name w urls planned Hread Hdir Hplan)
        as (w' & Hrun & Hi & _ & Hf & Hlast).
      eexists _, w'. split; [exact Hrun|]. split; [exact Hi|]. split.
      * intros q Hq. rewrite Hf. now apply lookup_insert_ne.
      * destruct (forallb _ _); [auto|discriminate].
  - exists (Raise e), w. unfold finish. cbv [mbind M_bind]. rewrite Hread.
    repeat split; auto; discriminate.
Qed.

Lemma lower_nil (s : str) : lower s = [] -> s = [].
Proof.
  destruct s as [|c s]; [reflexivity|]. unfold lower. cbn [flat_map].
  unfold lower_char.
  destruct (_ && _); [|destruct (c =? 0x212A); [|destruct (c =? 0x0130)]];
    discriminate.
Qed.

(** [choice != 'y'] fails for the answers [y] and [Y] and no other. *)
Lemma lower_is_y (answer : str) : lower answer = lit "y" <-> agreed answer.
Proof.
  unfold agreed. split.
  - destruct answer as [|c rest]; [discriminate|].
    unfold lower. cbn [flat_map]. fold (lower rest). unfold lower_char.
    change (lit "y") with [121].
    destruct ((0x41 <=? c) && (c <=? 0x5A)) eqn:Hupper.
    + cbn [app]. intros [= Hc ->%lower_nil]. right.
      replace c with 0x59 by lia. reflexivity.
    + destruct (Z.eqb_spec c 0x212A); [discriminate|].
      destruct (Z.eqb_spec c 0x0130); [discriminate|].
      cbn [app]. intros [= -> ->%lower_nil]. now left.
  - intros [->| ->]; reflexivity.
Qed.

(** Unfolds the statements of [main] before [finish]. *)
Ltac step :=
  cbv [mbind M_bind mret M_ret fmap M_fmap input os_path_isfile
       os_path_exists print];
  cbn [negb files stdin stdout slept calls server encodable].



(** X16: no overwriting without consent.  When [output_details.csv] is
    there and the operator answers anything but [y] or [Y], the run, however
    it ends once the requests it makes have returned, leaves every file that
    existed before it as it was. *)
Theorem main_keeps_existing_files (w : World) (fuel : nat) (line answer : str)
    (rest : list str) :
  stdin w = line :: answer :: rest ->
  is_Some (files w !! lit "output_details.csv") ->
  ~ agreed answer ->
  (S (size (files w)) < fuel)%nat ->
  never_hangs w ->
  exists w',
    main fuel w = Some (Ok tt, w') /\
    forall p, is_Some (files w !! p) -> files w' !! p = files w !! p.
Proof.
  intros Hin Hout Hno Hfuel Hlive. rewrite main_unfold. unfold try_except. step.
  rewrite Hin. step.
  destruct (files w !! strip_chars [0x22] line) as [[|input_rows]|] eqn:Hfile;
    step; try (eexists; split; [reflexivity|]; intros p _; reflexivity).
  unfold exists_b. cbn [files].
  rewrite (bool_decide_eq_true_2 (is_Some (files w !! lit "output_details.csv")))
    by assumption.
  step. cbn [result_fmap].
  rewrite (bool_decide_eq_true_2 (lower answer <> lit "y"))
    by (intros Hy; now apply Hno, lower_is_y).
  match goal with
  | |- context [get_unique_output_file fuel ?name ?w2] =>
      destruct (get_unique_output_file_returns w2 name fuel Hfuel)
        as (k & Hrun & Hfree & _);
      rewrite Hrun
  end.
  match goal with
  | |- context [finish ?p ?n ?w1] =>
      destruct (finish_runs p n w1 Hlive) as (r & w' & Hfin & _ & Hf & _);
      rewrite Hfin
  end.
  cbn [files] in *.
  assert (Hkept : forall p, is_Some (files w !! p) -> files w' !! p = files w !! p).
  { intros p Hp. apply Hf. intros ->.
    apply not_true_iff_false in Hfree. apply Hfree.
    unfold exists_b. cbn [files]. now apply bool_decide_eq_true_2. }
  destruct r as [[]|e]; (eexists; split; [reflexivity|exact Hkept]).
Qed.

Lemma main_keeps_existing_files_witness :
  exists w',
    main 4 declining_world = Some (Ok tt, w') /\
    forall p,
      is_Some (files declining_world !! p) ->
      files w' !! p = files declining_world !! p.
Proof.
  apply (main_keeps_existing_files declining_world 4 (lit "urls.csv") (lit "n") []).
  - reflexivity.
  - vm_compute. eauto.
  - intros [H|H]; discriminate.
  - vm_compute. lia.
  - intros n u. discriminate.
Defined.



(** Closes a goal about [main] at the call of [finish]. *)
Ltac close_with_finish Hlive Hclosed :=
  match goal with
  | |- context [finish ?p ?n ?w1] =>
      let r := fresh "r" in
      let w' := fresh "w'" in
      let Hfin := fresh "Hfin" in
      let Hr := fresh "Hr" in
      destruct (finish_runs p n w1 Hlive) as (r & w' & Hfin & _ & _ & Hr);
      rewrite Hfin;
      destruct r as [[]|?];
      [ exists w'; split; [reflexivity|];
        unfold run_closed; now rewrite (Hr eq_refl)
      | eexists; split; [reflexivity|]; now eapply Hclosed ]
  end.

(** X18: provided every call of [requests.get] returns, a run ends, and
    never with an exception.  With fuel for the search of a free name,
    [main] returns normally from every such world, also when the input
    cannot be read or a row cannot be written; the last thing it printed is
    the success message or an error message. *)
Theorem main_returns (w : World) (fuel : nat) :
  never_hangs w ->
  (S (size (files w)) < fuel)%nat ->
  exists w', main fuel w = Some (Ok tt, w') /\ run_closed w'.
Proof.
  intros Hlive Hfuel. rewrite main_unfold. unfold try_except. step.
  assert (Hclosed : forall w0 out m,
            stdout w0 = out ++ [m] ->
            match m with
            | FileDoesNotExist _ | AnErrorOccurred _ | ScrapingCompleted _ => True
            | _ => False
            end -> run_closed w0).
  { intros w0 out m Hw0 Hm. unfold run_closed. rewrite Hw0, last_snoc.
    now destruct m. }
  destruct (stdin w) as [|line rest] eqn:Hin; step.
  { eexists. split; [reflexivity|]. now eapply Hclosed. }
  destruct (files w !! strip_chars [0x22] line) as [[|input_rows]|] eqn:Hfile;
    step; try (eexists; split; [reflexivity|]; now eapply Hclosed).
  destruct (exists_b _ (lit "output_details.csv")).
  - destruct rest as [|answer rest]; step.
    + eexists. split; [reflexivity|]. now eapply Hclosed.
    + cbn [result_fmap]. destruct (bool_decide (lower answer <> lit "y")).
      * match goal with
        | |- context [get_unique_output_file fuel ?name ?w2] =>
            destruct (get_unique_output_file_returns w2 name fuel Hfuel)
              as (k & Hrun & _);
            rewrite Hrun
        end.
        close_with_finish Hlive Hclosed.
      * close_with_finish Hlive Hclosed.
  - close_with_finish Hlive Hclosed.
Qed.

Lemma main_returns_witness :
  exists w', main 4 declining_world = Some (Ok tt, w') /\ run_closed w'.
Proof.
  apply (main_returns declining_world 4).
  - intros n u. discriminate.
  - vm_compute. lia.
Defined.





End MainMore.
